(** * Web-Analytics crawler core: a shallow embedding and its properties

    The development follows the Python sources of the ingestion and
    scheduling core:

    - [src/crawler/blocking_detector.py]  (module [BlockingDetector])
    - [src/crawler/base_crawler.py]       (module [BaseCrawler])
    - [src/storage/mongo.py]              (module [Mongo])
    - [src/crawler/parsers/*.py]          (module [Parsers])
    - [src/crawler/crawl_manager.py]      (module [CrawlManager])
    - [src/crawler/scheduler.py]          (module [CrawlScheduler])

    Conventions.  Python [str] values are Rocq strings whose characters are
    read as code points below 256; on that range [str.lower] preserves the
    length of its argument.  Python exceptions are an explicit [result]
    type.  Logging, [time.sleep] and the timestamp fields ([last_crawl],
    [updated_at], [started_at], [completed_at], [duration_seconds],
    [crawled_at]) have no influence on the properties below and are left
    out of the state.  Functions of third-party libraries (the UTF-8 codec,
    BeautifulSoup, urllib, the HTTP session) are Section variables. *)

From Stdlib Require Import String Ascii List ZArith Lia Bool DecimalString.
From stdpp Require Import gmap strings.
Import ListNotations.

Open Scope string_scope.
Open Scope list_scope.

(** ** Python values used across the modules *)

Module Py.

(** Exceptions raised or caught by the modelled code. *)
Inductive exn : Type :=
| ValueError (msg : string)
| AttributeError (msg : string)
| RequestException (msg : string)
| DuplicateKeyError
| OtherError (msg : string).

Inductive result (A : Type) : Type :=
| Ok (a : A)
| Raise (e : exn).
Arguments Ok {A} a.
Arguments Raise {A} e.

(** [str(e)] for the exceptions above. *)
Definition str_of_exn (e : exn) : string :=
  match e with
  | ValueError m | AttributeError m | RequestException m | OtherError m => m
  | DuplicateKeyError => "duplicate key error"
  end.

(** [bytes] are sequences of 8-bit characters. *)
Definition bytes := string.

(** Truthiness of a [str] / [bytes] value and of an [Optional[str]]. *)
Definition truthy_str (s : string) : bool :=
  match s with EmptyString => false | String _ _ => true end.

Definition truthy_opt_str (o : option string) : bool :=
  match o with Some s => truthy_str s | None => false end.

(** [a or d] where [a : Optional[str]] and [d : str]. *)
Definition or_str (a : option string) (d : string) : string :=
  match a with
  | Some s => if truthy_str s then s else d
  | None => d
  end.

(** [str.lower] on code points below 256: A-Z and the Latin-1 capitals
    (U+00C0 to U+00DE, U+00D7 apart) move up by 32. *)
Definition lower_char (c : ascii) : ascii :=
  let n := nat_of_ascii c in
  if ((65 <=? n) && (n <=? 90))%nat then ascii_of_nat (n + 32)
  else if ((192 <=? n) && (n <=? 222) && negb (n =? 215))%nat
       then ascii_of_nat (n + 32)
       else c.

Fixpoint lower (s : string) : string :=
  match s with
  | EmptyString => EmptyString
  | String c s' => String (lower_char c) (lower s')
  end.

(** [str.isspace] on code points below 256. *)
Definition is_space (c : ascii) : bool :=
  let n := nat_of_ascii c in
  (((9 <=? n) && (n <=? 13)) || ((28 <=? n) && (n <=? 32))
   || (n =? 133) || (n =? 160))%nat.

(** [sub in s]. *)
Fixpoint contains (sub s : string) : bool :=
  String.prefix sub s
  || match s with
     | EmptyString => false
     | String _ s' => contains sub s'
     end.

(** [s.find(sub)]: the lowest index at which [sub] occurs, else [-1]. *)
Fixpoint find_from (sub s : string) (i : nat) : option nat :=
  if String.prefix sub s then Some i
  else match s with
       | EmptyString => None
       | String _ s' => find_from sub s' (S i)
       end.

Definition find (s sub : string) : Z :=
  match find_from sub s 0 with
  | Some i => Z.of_nat i
  | None => (-1)%Z
  end.

(** [s[k:]], and what it means for [sub] to occur in [s] at index [k]. *)
Fixpoint drop (k : nat) (s : string) : string :=
  match k, s with
  | O, _ => s
  | S k', String _ s' => drop k' s'
  | S _, EmptyString => EmptyString
  end.

Definition occurs_at (sub s : string) (k : nat) : Prop :=
  (k <= String.length s)%nat /\ String.prefix sub (drop k s) = true.

(** [s.split()] with no argument: maximal runs of non-space characters. *)
Fixpoint split_aux (s : string) (cur : string) : list string :=
  match s with
  | EmptyString =>
      if truthy_str cur then [cur] else []
  | String c s' =>
      if is_space c
      then (if truthy_str cur then cur :: split_aux s' "" else split_aux s' "")
      else split_aux s' (cur +:+ String c "")
  end.

Definition split (s : string) : list string := split_aux s "".

(** Slicing [s[i:j]] with Python's treatment of negative and
    out-of-range bounds. *)
Definition clamp_index (len i : Z) : Z :=
  if (i <? 0)%Z then Z.max 0 (i + len) else Z.min i len.

Definition slice (s : string) (i j : Z) : string :=
  let len := Z.of_nat (String.length s) in
  let lo := clamp_index len i in
  let hi := clamp_index len j in
  substring (Z.to_nat lo) (Z.to_nat (hi - lo)) s.

(** [s[:j]]. *)
Definition slice_to (s : string) (j : Z) : string := slice s 0 j.

(** Decimal rendering of an [int] inside an f-string. *)
Definition str_of_int (z : Z) : string :=
  NilZero.string_of_int (Z.to_int z).

End Py.

(** ** src/crawler/blocking_detector.py *)

Module BlockingDetector.
Import Py.

(** The regular expressions of the module are alternations of literals
    and of [a.*b]; [.] does not match a newline. *)
Inductive pattern : Type :=
| Lit (s : string)
| DotStar (a b : string).

Definition BLOCK_STATUS_CODES : list Z := [403; 429; 503]%Z.

Definition CAPTCHA_PATTERNS : list pattern :=
  [ Lit "captcha"; Lit "recaptcha"; Lit "hcaptcha"; Lit "cloudflare";
    Lit "challenge"; Lit "verify you are human"; Lit "security check";
    Lit "unusual traffic"; Lit "robot"; Lit "automated" ].

Definition IP_BAN_PATTERNS : list pattern :=
  [ DotStar "ip" "banned"; DotStar "ip" "blocked"; Lit "access denied";
    Lit "forbidden"; Lit "too many requests"; Lit "rate limit exceeded";
    Lit "temporarily blocked" ].

Definition newline : ascii := ascii_of_nat 10.

(** The part of [s] before its first newline. *)
Fixpoint line_prefix (s : string) : string :=
  match s with
  | EmptyString => EmptyString
  | String c s' =>
      if Ascii.eqb c newline then EmptyString else String c (line_prefix s')
  end.

(** The suffixes of [s] that follow an occurrence of [a]. *)
Fixpoint after_occurrences (a s : string) : list string :=
  (if String.prefix a s
   then [substring (String.length a) (String.length s - String.length a) s]
   else [])
  ++ match s with
     | EmptyString => []
     | String _ s' => after_occurrences a s'
     end.

(** [re.compile(p, re.IGNORECASE).search(text)] for one alternative;
    the patterns are lower-case, so the text is lowered. *)
Definition search1 (p : pattern) (text : string) : bool :=
  let t := lower text in
  match p with
  | Lit s => contains s t
  | DotStar a b =>
      existsb (fun rest => contains b (line_prefix rest)) (after_occurrences a t)
  end.

Definition search (ps : list pattern) (text : string) : bool :=
  existsb (fun p => search1 p text) ps.

Definition captcha_regex := search CAPTCHA_PATTERNS.
Definition ip_ban_regex := search IP_BAN_PATTERNS.

(** What BeautifulSoup finds in a page: any of the four CAPTCHA element
    lookups, and the Cloudflare [cf-wrapper] container. *)
Record dom_facts : Type := {
  captcha_indicators : bool;
  cf_wrapper : bool
}.

Record detection : Type := {
  blocked : bool;
  block_type : option string;
  http_block : option string;
  captcha_detected : bool;
  ip_ban_detected : bool;
  status_code : Z
}.

Definition detect_http_block (status : Z) : option string :=
  if (status =? 403)%Z then Some "HTTP_403_FORBIDDEN"
  else if (status =? 429)%Z then Some "HTTP_429_RATE_LIMIT"
  else if (status =? 503)%Z then Some "HTTP_503_SERVICE_UNAVAILABLE"
  else if existsb (Z.eqb status) BLOCK_STATUS_CODES
       then Some ("HTTP_" +:+ str_of_int status +:+ "_BLOCKED")
       else None.

Section Detector.
(** [content.decode('utf-8', errors='ignore')]. *)
Variable decode_ignore : bytes -> string.
(** [BeautifulSoup(html, 'html.parser')] followed by the [find]
    calls; [None] when the library raises. *)
Variable soup_find : string -> option dom_facts.

Definition detect_captcha (content : bytes) (url : string) : bool :=
  let html := decode_ignore content in
  if captcha_regex html then true
  else match soup_find html with
       | Some d =>
           if captcha_indicators d then true
           else if cf_wrapper d then true
           else false
       | None => false
       end.

Definition detect_ip_ban (content : bytes) (status : Z) : bool :=
  if (status =? 429)%Z then true
  else if ip_ban_regex (decode_ignore content) then true
  else false.

Definition detect_all (content : bytes) (status : Z) (url : string)
  : detection :=
  let r0 := {| blocked := false; block_type := None; http_block := None;
               captcha_detected := false; ip_ban_detected := false;
               status_code := status |} in
  let hb := detect_http_block status in
  let r1 :=
    if truthy_opt_str hb
    then {| blocked := true; block_type := hb; http_block := hb;
            captcha_detected := captcha_detected r0;
            ip_ban_detected := ip_ban_detected r0;
            status_code := status_code r0 |}
    else r0 in
  let r2 :=
    if detect_captcha content url
    then {| blocked := true;
            block_type := Some (or_str (block_type r1) "CAPTCHA");
            http_block := http_block r1;
            captcha_detected := true;
            ip_ban_detected := ip_ban_detected r1;
            status_code := status_code r1 |}
    else r1 in
  let r3 :=
    if detect_ip_ban content status
    then {| blocked := true;
            block_type := Some (or_str (block_type r2) "IP_BAN");
            http_block := http_block r2;
            captcha_detected := captcha_detected r2;
            ip_ban_detected := true;
            status_code := status_code r2 |}
    else r2 in
  r3.
End Detector.

End BlockingDetector.

(** ** src/crawler/base_crawler.py *)

Module BaseCrawler.
Import Py.

(** What one HTTP attempt of the session observes. *)
Inductive attempt : Type :=
| ConnError
| Resp (status : Z) (content : bytes).

(** [Retry(status_forcelist=[429, 500, 502, 503, 504], ...)] of
    [_create_session]. *)
Definition status_forcelist : list Z := [429; 500; 502; 503; 504]%Z.

Definition forced (status : Z) : bool := existsb (Z.eqb status) status_forcelist.

(** [self.session.get(url, timeout=...)] under the retry strategy mounted
    by [_create_session]: [server n] is what attempt number [n] observes,
    [retries] the retries still allowed.  The second component counts
    the attempts made.  A connection error or a forced status is retried
    while retries remain; when they are exhausted the session raises a
    [requests.RequestException]. *)
Fixpoint session_get (server : nat -> attempt) (retries n : nat)
  : result (Z * bytes) * nat :=
  match server n with
  | Resp status content =>
      if forced status
      then match retries with
           | O => (Raise (RequestException "RetryError: too many error responses"), S n)
           | S r => session_get server r (S n)
           end
      else (Ok (status, content), S n)
  | ConnError =>
      match retries with
      | O => (Raise (RequestException "ConnectionError: max retries exceeded"), S n)
      | S r => session_get server r (S n)
      end
  end.

(** [response.raise_for_status()]. *)
Definition raise_for_status (status : Z) : result unit :=
  if ((400 <=? status) && (status <? 600))%Z
  then Raise (RequestException ("HTTPError: " +:+ str_of_int status))
  else Ok tt.

Section Crawler.
(** [self.can_fetch(url)], the robots.txt verdict. *)
Variable can_fetch : string -> bool.
(** The remote end, per URL and attempt number. *)
Variable server : string -> nat -> attempt.
(** [self.max_retries]. *)
Variable max_retries : nat.

(** [fetch(url, respect_robots)]: [Optional[bytes]], or [ValueError]
    when robots.txt disallows.  [respect_rate_limit] only sleeps. *)
Definition fetch (url : string) (respect_robots : bool) : result (option bytes) :=
  if respect_robots && negb (can_fetch url)
  then Raise (ValueError ("Robots.txt disallows fetching: " +:+ url))
  else
    match fst (session_get (server url) max_retries 0) with
    | Ok (status, content) =>
        match raise_for_status status with
        | Ok _ => Ok (Some content)
        | Raise (RequestException _) => Ok None
        | Raise e => Raise e
        end
    | Raise (RequestException _) => Ok None
    | Raise e => Raise e
    end.

(** Number of HTTP attempts [fetch] makes for [url]. *)
Definition attempts_made (url : string) : nat :=
  snd (session_get (server url) max_retries 0).
End Crawler.

End BaseCrawler.

(** ** src/storage/models.py and src/storage/mongo.py *)

Module Mongo.
Import Py.

Inductive ContentType : Type :=
| HTML | RSS | PDF | TXT | TWITTER | REDDIT | YOUTUBE | LINKEDIN.

Inductive CrawlStatus : Type :=
| IDLE | RUNNING | COMPLETED | FAILED | PAUSED | BLOCKED.

Record CrawlConfig : Type := {
  frequency : string;
  max_hits : nat;              (* validated: 1 <= max_hits <= 10000 *)
  enabled : bool;
  follow_links : bool;
  max_depth : nat;
  rate_limit_per_minute : nat  (* validated: 1 <= rate <= 300 *)
}.

Record Project : Type := {
  project_oid : string;        (* _id *)
  project_name : string;
  project_keywords : list string
}.

Record Source : Type := {
  id : string;                 (* str(_id) *)
  name : string;
  url : string;
  project_id : option string;
  content_type : ContentType;
  config : CrawlConfig;
  status : CrawlStatus;
  last_error : option string;
  total_documents : nat
}.

Record DocumentMetadata : Type := {
  title : option string;
  author : option string;
  language : option string;
  word_count : nat;            (* validated: word_count >= 0 *)
  keywords : list string;
  custom : list (string * string)
}.

Record Document : Type := {
  doc_oid : string;            (* _id, assigned by insert_one *)
  doc_url : string;
  doc_source_id : string;
  doc_content_type : ContentType;
  raw_content : string;
  cleaned_text : string;
  metadata : DocumentMetadata;
  crawl_config_snapshot : CrawlConfig
}.

Record CrawlStats : Type := {
  stats_source_id : string;
  pages_crawled : nat;
  pages_failed : nat;
  bytes_downloaded : nat;
  errors : list string
}.

(** The four collections, and the counter behind generated [_id]s. *)
Record db : Type := {
  projects : list Project;
  sources : list Source;
  documents : list Document;
  crawl_stats : list CrawlStats;
  next_oid : nat
}.

(** *** ObjectId *)

Definition is_hex (c : ascii) : bool :=
  let n := nat_of_ascii c in
  (((48 <=? n) && (n <=? 57)) || ((65 <=? n) && (n <=? 70))
   || ((97 <=? n) && (n <=? 102)))%nat.

Fixpoint all_hex (s : string) : bool :=
  match s with
  | EmptyString => true
  | String c s' => is_hex c && all_hex s'
  end.

(** [ObjectId(s)]: [None] stands for [InvalidId]; a valid id is kept in
    the lower-case form that [str(oid)] prints. *)
Definition ObjectId (s : string) : option string :=
  if ((String.length s =? 24)%nat && all_hex s) then Some (lower s) else None.

Definition hex_digit (n : nat) : ascii :=
  match String.get n "0123456789abcdef" with
  | Some c => c
  | None => "0"%char
  end.

Fixpoint hex_fixed (width n : nat) (acc : string) : string :=
  match width with
  | O => acc
  | S w => hex_fixed w (n / 16) (String (hex_digit (n mod 16)) acc)
  end.

(** The id that [insert_one] generates. *)
Definition fresh_oid (d : db) : string := hex_fixed 24 (next_oid d) "".

(** *** Collection primitives *)

Fixpoint delete_one {A} (p : A -> bool) (l : list A) : list A :=
  match l with
  | [] => []
  | x :: l' => if p x then l' else x :: delete_one p l'
  end.

Definition delete_many {A} (p : A -> bool) (l : list A) : list A :=
  List.filter (fun x => negb (p x)) l.

Fixpoint update_one {A} (p : A -> bool) (f : A -> A) (l : list A) : list A :=
  match l with
  | [] => []
  | x :: l' => if p x then f x :: l' else x :: update_one p f l'
  end.

Definition opt_str_eqb (o : option string) (s : string) : bool :=
  match o with Some t => String.eqb t s | None => false end.

(** *** Project and source operations *)

Definition delete_project (d : db) (project_id : string) : db * bool :=
  match ObjectId project_id with
  | None => (d, false)
  | Some obj_id =>
      let srcs := delete_many (fun s => opt_str_eqb (Mongo.project_id s) project_id)
                              (sources d) in
      let projs := delete_one (fun p => String.eqb (project_oid p) obj_id)
                              (projects d) in
      ({| projects := projs; sources := srcs; documents := documents d;
          crawl_stats := crawl_stats d; next_oid := next_oid d |},
       (List.length projs <? List.length (projects d))%nat)
  end.

Definition get_source (d : db) (source_id : string) : option Source :=
  match ObjectId source_id with
  | None => None
  | Some obj_id => List.find (fun s => String.eqb (id s) obj_id) (sources d)
  end.

(** The [$set] document of [update_source], field by field. *)
Record updates : Type := {
  set_status : option CrawlStatus;
  set_last_error : option (option string);
  set_total_documents : option nat
}.

Definition apply_updates (u : updates) (s : Source) : Source :=
  {| id := id s; name := name s; url := url s; project_id := project_id s;
     content_type := content_type s; config := config s;
     status := default (status s) (set_status u);
     last_error := default (last_error s) (set_last_error u);
     total_documents := default (total_documents s) (set_total_documents u) |}.

Definition update_source (d : db) (source_id : string) (u : updates) : db :=
  match ObjectId source_id with
  | None => d
  | Some obj_id =>
      {| projects := projects d;
         sources := update_one (fun s => String.eqb (id s) obj_id)
                               (apply_updates u) (sources d);
         documents := documents d; crawl_stats := crawl_stats d;
         next_oid := next_oid d |}
  end.

Definition delete_source (d : db) (source_id : string) : db * bool :=
  match ObjectId source_id with
  | None => (d, false)
  | Some obj_id =>
      let docs := delete_many (fun x => String.eqb (doc_source_id x) source_id)
                              (documents d) in
      let srcs := delete_one (fun s => String.eqb (id s) obj_id) (sources d) in
      ({| projects := projects d; sources := srcs; documents := docs;
          crawl_stats := crawl_stats d; next_oid := next_oid d |},
       (List.length srcs <? List.length (sources d))%nat)
  end.

(** *** Documents *)

(** The unique index on [(url, source_id)]. *)
Definition same_key (a b : Document) : bool :=
  String.eqb (doc_url a) (doc_url b)
  && String.eqb (doc_source_id a) (doc_source_id b).

(** [self.documents.insert_one(doc_dict)]. *)
Definition insert_one (d : db) (doc : Document) : result (db * string) :=
  if existsb (same_key doc) (documents d) then Raise DuplicateKeyError
  else
    let oid := fresh_oid d in
    let stored :=
      {| doc_oid := oid; doc_url := doc_url doc;
         doc_source_id := doc_source_id doc;
         doc_content_type := doc_content_type doc;
         raw_content := raw_content doc; cleaned_text := cleaned_text doc;
         metadata := metadata doc;
         crawl_config_snapshot := crawl_config_snapshot doc |} in
    Ok ({| projects := projects d; sources := sources d;
           documents := documents d ++ [stored];
           crawl_stats := crawl_stats d; next_oid := S (next_oid d) |}, oid).

(** [create_document]: the inserted id, or [None] for a duplicate. *)
Definition create_document (d : db) (doc : Document) : result (db * option string) :=
  match insert_one d doc with
  | Ok (d', oid) => Ok (d', Some oid)
  | Raise DuplicateKeyError => Ok (d, None)
  | Raise e => Raise e
  end.

Definition count_documents (d : db) (source_id : option string) : nat :=
  match source_id with
  | Some sid =>
      if truthy_str sid
      then List.length (List.filter (fun x => String.eqb (doc_source_id x) sid)
                                    (documents d))
      else List.length (documents d)
  | None => List.length (documents d)
  end.

Definition save_crawl_stats (d : db) (st : CrawlStats) : db :=
  {| projects := projects d; sources := sources d; documents := documents d;
     crawl_stats := crawl_stats d ++ [st]; next_oid := next_oid d |}.

(** *** Snippets *)

(** The loop over [keywords_list] that keeps the lowest hit. *)
Fixpoint best_position (text_lower : string) (keywords_list : list string)
         (best_pos : Z) : Z :=
  match keywords_list with
  | [] => best_pos
  | keyword :: rest =>
      let pos := find text_lower keyword in
      let best_pos' :=
        if negb (pos =? -1)%Z
        then (if (best_pos =? -1)%Z || (pos <? best_pos)%Z then pos else best_pos)
        else best_pos in
      best_position text_lower rest best_pos'
  end.

Definition _generate_snippet (text keywords : string) (max_length : Z) : string :=
  if negb (truthy_str text) then ""
  else
    let keywords_list := split (lower keywords) in
    let text_lower := lower text in
    let best_pos := best_position text_lower keywords_list (-1) in
    let len := Z.of_nat (String.length text) in
    if (best_pos =? -1)%Z
    then slice_to text max_length
         +:+ (if (max_length <? len)%Z then "..." else "")
    else
      let start := Z.max 0 (best_pos - max_length / 2) in
      let end_ := Z.min len (best_pos + max_length / 2) in
      let snippet := slice text start end_ in
      let snippet := if (0 <? start)%Z then "..." +:+ snippet else snippet in
      let snippet := if (end_ <? len)%Z then snippet +:+ "..." else snippet in
      snippet.

End Mongo.

(** ** src/crawler/parsers/base_parser.py and html_parser.py *)

Module Parsers.
Import Py.

(** The instance attributes that [ParserResult.__init__] sets
    ([publish_date] is a timestamp and left out). *)
Record ParserResult : Type := {
  url : string;
  content_type : string;
  raw_content : string;
  cleaned_text : string;
  title : option string;
  author : option string;
  language : option string;
  word_count : Z;
  custom_metadata : list (string * string)
}.

(** Everything [hasattr] can find on a [ParserResult]: the attributes of
    [__init__] and the two methods of the class. *)
Definition attributes : list string :=
  [ "url"; "content_type"; "raw_content"; "cleaned_text"; "title"; "author";
    "publish_date"; "language"; "word_count"; "custom_metadata";
    "_count_words"; "to_dict" ].

Definition hasattr (r : ParserResult) (name : string) : bool :=
  existsb (String.eqb name) attributes.

(** [getattr(r, name)] for the attributes that hold a [str];
    [None] stands for [AttributeError]. *)
Definition getattr_str (r : ParserResult) (name : string) : option string :=
  if String.eqb name "url" then Some (url r)
  else if String.eqb name "content_type" then Some (content_type r)
  else if String.eqb name "raw_content" then Some (raw_content r)
  else if String.eqb name "cleaned_text" then Some (cleaned_text r)
  else None.

(** [getattr(r, name)] for attributes that hold a list of results: the
    class has none. *)
Definition getattr_results (r : ParserResult) (name : string)
  : option (list ParserResult) := None.

(** [ParserResult._count_words]. *)
Definition _count_words (text : string) : Z :=
  if negb (truthy_str text) then 0%Z else Z.of_nat (List.length (split text)).

(** The constructor: [word_count or self._count_words(cleaned_text)] and
    [custom_metadata or {}]. *)
Definition mk_ParserResult (u ct raw cleaned : string)
           (t a l : option string) (wc : Z) (cm : list (string * string))
  : ParserResult :=
  {| url := u; content_type := ct; raw_content := raw; cleaned_text := cleaned;
     title := t; author := a; language := l;
     word_count := if (wc =? 0)%Z then _count_words cleaned else wc;
     custom_metadata := cm |}.

(** [BaseParser.clean_text]: strip the lines, drop the empty ones, join
    with a space, collapse white space. *)
Fixpoint join_space (ws : list string) : string :=
  match ws with
  | [] => ""
  | [w] => w
  | w :: rest => w +:+ " " +:+ join_space rest
  end.

Definition clean_text (text : string) : string := join_space (split text).

(** *** HTMLParser *)

(** An [<a>] element as BeautifulSoup presents it: [rel] and [class] are
    multi-valued attributes. *)
Record anchor : Type := {
  rel : list string;
  class_ : list string;
  a_id : option string;
  href : option string
}.

(** What the parser reads off the soup of one page. *)
Record page : Type := {
  page_title : option string;
  page_author : option string;
  page_language : option string;
  visible_text : string;
  anchors : list anchor          (* in document order *)
}.

(** [re.compile(r'next', re.I).search(v)]. *)
Definition matches_next (v : string) : bool := contains "next" (lower v).

Inductive next_pattern : Type := ByRel | ByClass | ById.

Definition next_patterns : list next_pattern := [ByRel; ByClass; ById].

Definition anchor_matches (p : next_pattern) (a : anchor) : bool :=
  match p with
  | ByRel => existsb (String.eqb "next") (rel a)
  | ByClass => existsb matches_next (class_ a)
  | ById => match a_id a with Some v => matches_next v | None => false end
  end.

Section HTML.
(** [urllib.parse.urljoin]. *)
Variable urljoin : string -> string -> string.
(** [BaseParser.decode_content]. *)
Variable decode_content : bytes -> string.
(** [BeautifulSoup(html_text, 'lxml')] and the extraction helpers;
    [None] when the library raises. *)
Variable soup : string -> option page.

Fixpoint detect_in (ps : list next_pattern) (pg : page) (current_url : string)
  : option string :=
  match ps with
  | [] => None
  | p :: rest =>
      match List.find (anchor_matches p) (anchors pg) with
      | Some next_link =>
          match href next_link with
          | Some h =>
              if truthy_str h
              then if String.prefix "/" h then Some (urljoin current_url h)
                   else if String.prefix "http" h then Some h
                   else detect_in rest pg current_url
              else detect_in rest pg current_url
          | None => detect_in rest pg current_url
          end
      | None => detect_in rest pg current_url
      end
  end.

Definition _detect_next_page (pg : page) (current_url : string) : option string :=
  detect_in next_patterns pg current_url.

(** [HTMLParser.parse]: the detected link goes into
    [custom_metadata["next_page"]]. *)
Definition parse (content : bytes) (u : string) : result ParserResult :=
  let html_text := decode_content content in
  match soup html_text with
  | None => Raise (ValueError "HTML parsing failed")
  | Some pg =>
      let cleaned := clean_text (visible_text pg) in
      let next_page := _detect_next_page pg u in
      let custom :=
        match next_page with
        | Some np => if truthy_str np then [("next_page", np)] else []
        | None => []
        end in
      Ok (mk_ParserResult u "html" html_text cleaned (page_title pg)
                          (page_author pg) (page_language pg) 0 custom)
  end.
End HTML.

End Parsers.

(** ** src/crawler/crawl_manager.py *)

Module CrawlManager.
Import Py.
Import Mongo.

(** What [self.crawler.fetch] hands back, as far as the manager looks at
    it: its truth value and its [content] and [status_code] attributes
    ([None] where the attribute is missing). *)
Inductive pyobj : Type :=
| PNone
| PBytes (b : bytes)
| PObject (truth : bool) (content : option bytes) (status_code : option Z).

Definition truthy (o : pyobj) : bool :=
  match o with
  | PNone => false
  | PBytes b => truthy_str b
  | PObject t _ _ => t
  end.

Definition attr_content (o : pyobj) : result bytes :=
  match o with
  | PObject _ (Some c) _ => Ok c
  | PObject _ None _ => Raise (AttributeError "object has no attribute 'content'")
  | PBytes _ => Raise (AttributeError "'bytes' object has no attribute 'content'")
  | PNone => Raise (AttributeError "'NoneType' object has no attribute 'content'")
  end.

Definition attr_status_code (o : pyobj) : result Z :=
  match o with
  | PObject _ _ (Some s) => Ok s
  | PObject _ _ None => Raise (AttributeError "object has no attribute 'status_code'")
  | PBytes _ => Raise (AttributeError "'bytes' object has no attribute 'status_code'")
  | PNone => Raise (AttributeError "'NoneType' object has no attribute 'status_code'")
  end.

(** A [requests.Response]: its truth value is [Response.ok]. *)
Definition requests_Response (status : Z) (content : bytes) : pyobj :=
  PObject (negb ((400 <=? status) && (status <? 600))%Z) (Some content) (Some status).

(** The value [BaseCrawler.fetch] returns, as a Python object. *)
Definition of_optional_bytes (o : option bytes) : pyobj :=
  match o with Some b => PBytes b | None => PNone end.

(** The fetcher that [CrawlManager.__init__] installs:
    [BaseCrawler().fetch(url)]. *)
Definition base_fetch (can_fetch : string -> bool)
           (server : string -> nat -> BaseCrawler.attempt) (max_retries : nat)
  : list string -> string -> result pyobj :=
  fun _ u =>
    match BaseCrawler.fetch can_fetch server max_retries u true with
    | Ok o => Ok (of_optional_bytes o)
    | Raise e => Raise e
    end.

(** The first argument of [parser.parse]: the fetched bytes, or the
    literal [{}] that the Reddit branch passes. *)
Inductive parse_input : Type :=
| InBytes (b : bytes)
| InEmptyDict.

(** Updates of the [stats] object. *)
Definition new_stats (source_id : string) : CrawlStats :=
  {| stats_source_id := source_id; pages_crawled := 0; pages_failed := 0;
     bytes_downloaded := 0; errors := [] |}.

Definition incr_failed (st : CrawlStats) : CrawlStats :=
  {| stats_source_id := stats_source_id st; pages_crawled := pages_crawled st;
     pages_failed := S (pages_failed st);
     bytes_downloaded := bytes_downloaded st; errors := errors st |}.

Definition incr_crawled (st : CrawlStats) : CrawlStats :=
  {| stats_source_id := stats_source_id st; pages_crawled := S (pages_crawled st);
     pages_failed := pages_failed st;
     bytes_downloaded := bytes_downloaded st; errors := errors st |}.

Definition add_bytes (n : nat) (st : CrawlStats) : CrawlStats :=
  {| stats_source_id := stats_source_id st; pages_crawled := pages_crawled st;
     pages_failed := pages_failed st;
     bytes_downloaded := bytes_downloaded st + n; errors := errors st |}.

Definition add_error (msg : string) (st : CrawlStats) : CrawlStats :=
  {| stats_source_id := stats_source_id st; pages_crawled := pages_crawled st;
     pages_failed := pages_failed st;
     bytes_downloaded := bytes_downloaded st; errors := errors st ++ [msg] |}.

(** [f"{block_result['block_type']}"]. *)
Definition fmt_block_type (bt : option string) : string :=
  match bt with Some s => s | None => "None" end.

Definition is_social (ct : ContentType) : bool :=
  match ct with TWITTER | REDDIT | YOUTUBE => true | _ => false end.

(** The state of the [while] loop of [_crawl_traditional]. *)
Record loop_state : Type := {
  ls_db : db;
  ls_stats : CrawlStats;
  results : list Parsers.ParserResult;
  urls_to_crawl : list string;
  crawled_urls : gset string;
  fetched : list string          (* the URLs handed to [fetch], in order *)
}.

Section Manager.
(** The blocking detector's library functions. *)
Variable decode_ignore : bytes -> string.
Variable soup_find : string -> option BlockingDetector.dom_facts.
(** [self.crawler.fetch(url)]; the first argument is the list of URLs
    fetched earlier in the run. *)
Variable fetch : list string -> string -> result pyobj.
(** [self.parsers[content_type].parse(content, url)]. *)
Variable parse : ContentType -> parse_input -> string
                 -> result Parsers.ParserResult.

Definition detect_all := BlockingDetector.detect_all decode_ignore soup_find.

(** The [except Exception] clause of the loop. *)
Definition page_failed (st : loop_state) (rest : list string)
           (log : list string) (u : string) (e : exn) : loop_state :=
  {| ls_db := ls_db st;
     ls_stats := add_error (u +:+ ": " +:+ str_of_exn e) (incr_failed (ls_stats st));
     results := results st; urls_to_crawl := rest;
     crawled_urls := crawled_urls st; fetched := log |}.

(** The lines after a successful parse: record the result, then the
    [follow_links] test. *)
Definition record_result (source : Source) (st : loop_state)
           (rest log : list string) (u : string) (content : bytes)
           (r : Parsers.ParserResult) : loop_state :=
  let crawled := {[u]} ∪ crawled_urls st in
  let queue :=
    if follow_links (config source) && Parsers.hasattr r "next_page"
    then match Parsers.getattr_str r "next_page" with
         | Some np =>
             if truthy_str np && negb (bool_decide (np ∈ crawled))
             then rest ++ [np] else rest
         | None => rest
         end
    else rest in
  {| ls_db := ls_db st;
     ls_stats := add_bytes (String.length content) (ls_stats st);
     results := results st ++ [r]; urls_to_crawl := queue;
     crawled_urls := crawled; fetched := log |}.

(** One iteration of the loop body; the boolean is [false] on
    [break]. *)
Definition loop_body (source : Source) (st : loop_state) : loop_state * bool :=
  match urls_to_crawl st with
  | [] => (st, false)
  | u :: rest =>
      if bool_decide (u ∈ crawled_urls st)
      then ({| ls_db := ls_db st; ls_stats := ls_stats st; results := results st;
               urls_to_crawl := rest; crawled_urls := crawled_urls st;
               fetched := fetched st |}, true)
      else
        let log := fetched st ++ [u] in
        match fetch (fetched st) u with
        | Raise e => (page_failed st rest log u e, true)
        | Ok response =>
            if negb (truthy response)
            then ({| ls_db := ls_db st; ls_stats := incr_failed (ls_stats st);
                     results := results st; urls_to_crawl := rest;
                     crawled_urls := crawled_urls st; fetched := log |}, true)
            else
              match attr_content response with
              | Raise e => (page_failed st rest log u e, true)
              | Ok content =>
              match attr_status_code response with
              | Raise e => (page_failed st rest log u e, true)
              | Ok status =>
                  let block_result := detect_all content status u in
                  if BlockingDetector.blocked block_result
                  then
                    let msg := "Blocked: " +:+
                      fmt_block_type (BlockingDetector.block_type block_result) in
                    ({| ls_db := update_source (ls_db st) (id source)
                                   {| set_status := Some BLOCKED;
                                      set_last_error := Some (Some msg);
                                      set_total_documents := None |};
                        ls_stats := add_error msg (ls_stats st);
                        results := results st; urls_to_crawl := rest;
                        crawled_urls := crawled_urls st; fetched := log |}, false)
                  else
                    match parse (content_type source) (InBytes content) u with
                    | Raise e => (page_failed st rest log u e, true)
                    | Ok r => (record_result source st rest log u content r, true)
                    end
              end
              end
        end
  end.

Definition loop_cond (source : Source) (st : loop_state) : bool :=
  match urls_to_crawl st with
  | [] => false
  | _ :: _ => (List.length (results st) <? max_hits (config source))%nat
  end.

(** The [while] loop, with a bound on the number of iterations. *)
Fixpoint crawl_loop (fuel : nat) (source : Source) (st : loop_state) : loop_state :=
  match fuel with
  | O => st
  | S fuel' =>
      if loop_cond source st
      then match loop_body source st with
           | (st', true) => crawl_loop fuel' source st'
           | (st', false) => st'
           end
      else st
  end.

(** The quantity that every iteration decreases. *)
Definition measure (source : Source) (st : loop_state) : nat :=
  List.length (urls_to_crawl st)
  + (max_hits (config source) - List.length (results st)).

Definition _crawl_traditional (d : db) (source : Source) (stats : CrawlStats)
  : loop_state :=
  let st0 := {| ls_db := d; ls_stats := stats; results := [];
                urls_to_crawl := [url source]; crawled_urls := ∅;
                fetched := [] |} in
  crawl_loop (measure source st0) source st0.

(** The [except Exception] clause of [_crawl_social_media]. *)
Definition social_failed (stats : CrawlStats) (e : exn) : CrawlStats :=
  add_error ("Social media error: " +:+ str_of_exn e) (incr_failed stats).

(** The [hasattr(result, 'items')] cascade of the Reddit and YouTube
    branches. *)
Definition items_or_self (source : Source) (r : Parsers.ParserResult)
  : list Parsers.ParserResult :=
  if Parsers.hasattr r "items"
  then match Parsers.getattr_results r "items" with
       | Some items => firstn (max_hits (config source)) items
       | None => []
       end
  else [r].

Definition _crawl_social_media (source : Source) (stats : CrawlStats)
  : list Parsers.ParserResult * CrawlStats * list string :=
  let log := [url source] in
  match fetch [] (url source) with
  | Raise e => ([], social_failed stats e, log)
  | Ok response =>
      if negb (truthy response) then ([], incr_failed stats, log)
      else
        match attr_content response with
        | Raise e => ([], social_failed stats e, log)
        | Ok content =>
            let stats1 := add_bytes (String.length content) stats in
            let parsed :=
              match content_type source with
              | TWITTER | LINKEDIN =>
                  match parse (content_type source) (InBytes content) (url source) with
                  | Ok r => Ok [r]
                  | Raise e => Raise e
                  end
              | REDDIT =>
                  match parse REDDIT InEmptyDict (url source) with
                  | Ok r => Ok (items_or_self source r)
                  | Raise e => Raise e
                  end
              | YOUTUBE =>
                  match parse YOUTUBE (InBytes content) (url source) with
                  | Ok r => Ok (items_or_self source r)
                  | Raise e => Raise e
                  end
              | _ => Ok []
              end in
            match parsed with
            | Ok rs => (firstn (max_hits (config source)) rs, stats1, log)
            | Raise e => ([], social_failed stats1 e, log)
            end
        end
  end.

(** [_store_document]: [DocumentMetadata] rejects a negative
    [word_count]; a duplicate key is not an error. *)
Definition _store_document (d : db) (source : Source) (r : Parsers.ParserResult)
  : result db :=
  if (Parsers.word_count r <? 0)%Z
  then Raise (OtherError "ValidationError: word_count must be greater than or equal to 0")
  else
    let document :=
      {| doc_oid := ""; doc_url := Parsers.url r; doc_source_id := id source;
         doc_content_type := content_type source;
         raw_content := Parsers.raw_content r;
         cleaned_text := Parsers.cleaned_text r;
         metadata := {| title := Parsers.title r; author := Parsers.author r;
                        language := Parsers.language r;
                        word_count := Z.to_nat (Parsers.word_count r);
                        keywords := [];
                        custom := Parsers.custom_metadata r |};
         crawl_config_snapshot := config source |} in
    match create_document d document with
    | Ok (d', _) => Ok d'
    | Raise e => Raise e
    end.

(** The store loop of [crawl_source]; the last component is the local
    [documents_stored]. *)
Fixpoint store_results (source : Source) (rs : list Parsers.ParserResult)
         (d : db) (stats : CrawlStats) (documents_stored : nat)
  : db * CrawlStats * nat :=
  match rs with
  | [] => (d, stats, documents_stored)
  | r :: rest =>
      if (max_hits (config source) <=? pages_crawled stats)%nat
      then (d, stats, documents_stored)
      else match _store_document d source r with
           | Ok d' =>
               store_results source rest d' (incr_crawled stats) (S documents_stored)
           | Raise e =>
               store_results source rest d
                 (add_error (str_of_exn e) (incr_failed stats)) documents_stored
           end
  end.

(** What one call of [crawl_source] leaves behind, beside the
    database: the returned stats (or the exception), the URLs fetched,
    the results handed to the store loop and its [documents_stored]. *)
Record run : Type := {
  run_db : db;
  outcome : result CrawlStats;
  run_fetched : list string;
  run_results : list Parsers.ParserResult;
  documents_stored : nat
}.

Definition crawl_source (d : db) (source_id : string) : run :=
  match get_source d source_id with
  | None =>
      {| run_db := d;
         outcome := Raise (ValueError ("Source not found: " +:+ source_id));
         run_fetched := []; run_results := []; documents_stored := 0 |}
  | Some source =>
      let stats := new_stats source_id in
      let d1 := update_source d source_id
                  {| set_status := Some RUNNING; set_last_error := None;
                     set_total_documents := None |} in
      if (rate_limit_per_minute (config source) =? 0)%nat
      then
        (* 60.0 / 0: ZeroDivisionError, handled by the outer except *)
        let msg := "float division by zero" in
        {| run_db := update_source d1 source_id
                       {| set_status := Some FAILED;
                          set_last_error := Some (Some msg);
                          set_total_documents := None |};
           outcome := Ok (add_error msg stats);
           run_fetched := []; run_results := []; documents_stored := 0 |}
      else
        let '(d2, rs, stats1, log) :=
          if is_social (content_type source)
          then let '(rs, st, log) := _crawl_social_media source stats in
               (d1, rs, st, log)
          else let st := _crawl_traditional d1 source stats in
               (ls_db st, results st, ls_stats st, fetched st) in
        let '(d3, stats2, stored) := store_results source rs d2 stats1 0 in
        let d4 := update_source d3 source_id
                    {| set_status := Some COMPLETED;
                       set_last_error := Some None;
                       set_total_documents :=
                         Some (total_documents source + stored) |} in
        {| run_db := save_crawl_stats d4 stats2; outcome := Ok stats2;
           run_fetched := log; run_results := rs; documents_stored := stored |}
  end.
End Manager.

End CrawlManager.

(** ** src/crawler/scheduler.py *)

Module CrawlScheduler.
Import Py.
Import Mongo.

(** A job of the APScheduler instance: a cron trigger for the scheduled
    jobs, none for the one-shot manual ones. *)
Record job : Type := {
  job_id : string;
  job_name : string;
  job_args : string;             (* the source id handed to [_crawl_job] *)
  job_trigger : option string
}.

(** The scheduler object together with the database it works on.
    [executing] lists the source ids for which [_execute_crawl] was
    entered, oldest first. *)
Record state : Type := {
  st_db : db;
  jobs : list job;
  active_crawls : gmap string bool;
  executing : list string
}.

(** [self.active_crawls.get(source_id, False)]. *)
Definition is_active (s : state) (source_id : string) : bool :=
  default false (active_crawls s !! source_id).

(** [self.active_crawls[source_id] = b]. *)
Definition set_active (s : state) (source_id : string) (b : bool) : state :=
  {| st_db := st_db s; jobs := jobs s;
     active_crawls := <[source_id := b]> (active_crawls s);
     executing := executing s |}.

(** [trigger_source_crawl]; [now] is the rendering of
    [datetime.utcnow().timestamp()] that makes the job id. *)
Definition trigger_source_crawl (s : state) (now : string) (source_id : string)
  : state * bool :=
  if is_active s source_id then (s, false)
  else
    ({| st_db := st_db s;
        jobs := jobs s ++ [ {| job_id := "manual_crawl_" +:+ source_id +:+ "_" +:+ now;
                               job_name := "Manual crawl: " +:+ source_id;
                               job_args := source_id;
                               job_trigger := None |} ];
        active_crawls := active_crawls s; executing := executing s |}, true).

Section Jobs.
Variable decode_ignore : bytes -> string.
Variable soup_find : string -> option BlockingDetector.dom_facts.
Variable fetch : list string -> string -> result CrawlManager.pyobj.
Variable parse : ContentType -> CrawlManager.parse_input -> string
                 -> result Parsers.ParserResult.

Definition crawl_source :=
  CrawlManager.crawl_source decode_ignore soup_find fetch parse.

(** The [try] block of [_execute_crawl]: the crawl itself; an
    exception of [crawl_source] is logged and swallowed. *)
Definition execute_try (s : state) (source_id : string) : state :=
  {| st_db := CrawlManager.run_db (crawl_source (st_db s) source_id);
     jobs := jobs s; active_crawls := active_crawls s;
     executing := executing s ++ [source_id] |}.

(** The [finally] block of [_execute_crawl]. *)
Definition execute_finally (s : state) (source_id : string) : state :=
  set_active s source_id false.

Definition _execute_crawl (s : state) (source_id : string) : state :=
  execute_finally (execute_try s source_id) source_id.

Definition _crawl_job (s : state) (source_id : string) : state :=
  if is_active s source_id then s
  else _execute_crawl (set_active s source_id true) source_id.

(** *** Jobs on worker threads

    APScheduler runs every job on a thread of its pool, so two
    invocations of [_crawl_job] interleave between statements.  A
    worker is at one of the statements of [_crawl_job] and
    [_execute_crawl]. *)
Inductive pc : Type :=
| AtCheck       (* if self.active_crawls.get(source_id, False): return *)
| AtMark        (* self.active_crawls[source_id] = True *)
| AtExecute     (* the try block of _execute_crawl *)
| AtFinally     (* self.active_crawls[source_id] = False *)
| Returned.

Record worker : Type := {
  w_source : string;
  w_pc : pc
}.

Record system : Type := {
  shared : state;
  workers : list worker
}.

Definition at_pc (w : worker) (p : pc) : worker :=
  {| w_source := w_source w; w_pc := p |}.

(** The statement a worker is at: its effect on the scheduler and
    the statement that follows. *)
Definition statement (s : state) (w : worker) : state * pc :=
  match w_pc w with
  | AtCheck =>
      if is_active s (w_source w) then (s, Returned) else (s, AtMark)
  | AtMark => (set_active s (w_source w) true, AtExecute)
  | AtExecute => (execute_try s (w_source w), AtFinally)
  | AtFinally => (execute_finally s (w_source w), Returned)
  | Returned => (s, Returned)
  end.

(** Worker [i] executes its next statement. *)
Definition step (sy : system) (i : nat) : system :=
  match workers sy !! i with
  | None => sy
  | Some w =>
      {| shared := fst (statement (shared sy) w);
         workers := <[i := at_pc w (snd (statement (shared sy) w))]> (workers sy) |}
  end.

(** A schedule names the worker that moves at each instant. *)
Definition run_schedule (sy : system) (schedule : list nat) : system :=
  fold_left step schedule sy.

(** A worker holds a run of its source from the moment it has set the
    mark until it has cleared it. *)
Definition in_run (w : worker) : bool :=
  match w_pc w with
  | AtExecute | AtFinally => true
  | _ => false
  end.

Definition active_runs (sy : system) (source_id : string) : nat :=
  List.length (List.filter
                 (fun w => in_run w && String.eqb (w_source w) source_id)
                 (workers sy)).

(** No worker stands between check and marking, no source has two runs
    in progress, and a source with a run in progress is marked. *)
Definition exclusive (sy : system) : Prop :=
  Forall (fun w => w_pc w <> AtMark) (workers sy)
  /\ forall a, (active_runs sy a <= 1)%nat
              /\ (active_runs sy a = 1%nat -> is_active (shared sy) a = true).

(** The same workers when the check and the marking of [_crawl_job]
    happen in one indivisible move. *)
Definition step_atomic (sy : system) (i : nat) : system :=
  match workers sy !! i with
  | None => sy
  | Some w =>
      match w_pc w with
      | AtCheck => step (step sy i) i
      | _ => step sy i
      end
  end.

Definition run_atomic (sy : system) (schedule : list nat) : system :=
  fold_left step_atomic schedule sy.
End Jobs.

End CrawlScheduler.

(** ** Concrete sources, pages and databases used in the examples *)

Module Scenario.
Import Py.
Import Mongo.
Import CrawlManager.

Definition cfg : CrawlConfig :=
  {| frequency := "*/5 * * * *"; max_hits := 10; enabled := true;
     follow_links := true; max_depth := 1; rate_limit_per_minute := 30 |}.

Definition sid : string := "507f1f77bcf86cd799439011".
Definition sid2 : string := "507f1f77bcf86cd799439012".
Definition pid : string := "60c72b2f9b1e8a3d4c5f6a7b".

Definition blog : Source :=
  {| id := sid; name := "Tech Blog"; url := "http://example.com/blog";
     project_id := Some pid; content_type := HTML; config := cfg;
     status := IDLE; last_error := None; total_documents := 0 |}.

Definition news : Source :=
  {| id := sid2; name := "News"; url := "http://example.com/news";
     project_id := Some pid; content_type := HTML; config := cfg;
     status := IDLE; last_error := None; total_documents := 0 |}.

Definition db0 : db :=
  {| projects := [ {| project_oid := pid; project_name := "Healthcare";
                      project_keywords := ["hospital"] |} ];
     sources := [blog; news]; documents := []; crawl_stats := [];
     next_oid := 0 |}.

(** The page served at every URL: it carries a [rel="next"] link. *)
Definition blog_page : Parsers.page :=
  {| Parsers.page_title := Some "Test Page"; Parsers.page_author := None;
     Parsers.page_language := None; Parsers.visible_text := "Welcome to the blog";
     Parsers.anchors :=
       [ {| Parsers.rel := ["next"]; Parsers.class_ := []; Parsers.a_id := None;
            Parsers.href := Some "http://example.com/blog/page2" |} ] |}.

(** A page whose [rel="next"] link is relative to the current directory. *)
Definition relative_page : Parsers.page :=
  {| Parsers.page_title := None; Parsers.page_author := None;
     Parsers.page_language := None; Parsers.visible_text := "Older posts";
     Parsers.anchors :=
       [ {| Parsers.rel := ["next"]; Parsers.class_ := ["pager-next"];
            Parsers.a_id := None; Parsers.href := Some "page2.html" |} ] |}.

Definition body : bytes := "<html><title>Test Page</title>Welcome to the blog</html>".

Definition urljoin (base h : string) : string := base +:+ h.
Definition decode (b : bytes) : string := b.
Definition soup (html : string) : option Parsers.page := Some blog_page.
Definition no_dom (html : string) : option BlockingDetector.dom_facts := None.

Definition html_parse (ct : ContentType) (i : parse_input) (u : string)
  : result Parsers.ParserResult :=
  match i with
  | InBytes b => Parsers.parse urljoin decode soup b u
  | InEmptyDict => Raise (ValueError "parsing failed")
  end.

(** A fetcher that hands back the HTTP response of a healthy server. *)
Definition fetch_ok (log : list string) (u : string) : result pyobj :=
  Ok (requests_Response 200 body).



Definition crawl := crawl_source decode no_dom.


Definition first_run : run := crawl fetch_ok html_parse db0 sid.
Definition second_run : run := crawl fetch_ok html_parse (run_db first_run) sid.

(** The document that the second run tries to insert again. *)
Definition blog_document : Document :=
  {| doc_oid := ""; doc_url := url blog; doc_source_id := sid;
     doc_content_type := HTML; raw_content := body;
     cleaned_text := "Welcome to the blog";
     metadata := {| title := Some "Test Page"; author := None; language := None;
                    word_count := 4; keywords := [];
                    custom := [("next_page", "http://example.com/blog/page2")] |};
     crawl_config_snapshot := cfg |}.

(** A database in which [blog] owns one document and one stats record. *)
Definition db_owned : db := run_db first_run.

(** A server that answers every attempt with [403 Forbidden]. *)
Definition server_403 (u : string) (n : nat) : BaseCrawler.attempt :=
  BaseCrawler.Resp 403 "Forbidden".

Definition robots_allow (u : string) : bool := true.

(** Two workers that were handed the same source. *)
Definition two_workers (s : CrawlScheduler.state) : CrawlScheduler.system :=
  {| CrawlScheduler.shared := s;
     CrawlScheduler.workers :=
       [ {| CrawlScheduler.w_source := sid; CrawlScheduler.w_pc := CrawlScheduler.AtCheck |};
         {| CrawlScheduler.w_source := sid; CrawlScheduler.w_pc := CrawlScheduler.AtCheck |} ] |}.

Definition idle_scheduler : CrawlScheduler.state :=
  {| CrawlScheduler.st_db := db0; CrawlScheduler.jobs := [];
     CrawlScheduler.active_crawls := ∅; CrawlScheduler.executing := [] |}.


End Scenario.

(** ** Further parts of the same sources

    [str.strip] and [str.split(sep)], the robots.txt cache of the fetcher,
    the plain-text parser, the job management of the scheduler and the
    HTTP endpoints that drive it. *)

Module PyMore.
Import Py.

(** [s.lstrip()], [s.rstrip()] and [s.strip()]. *)
Fixpoint lstrip (s : string) : string :=
  match s with
  | EmptyString => EmptyString
  | String c s' => if is_space c then lstrip s' else s
  end.

Fixpoint rstrip (s : string) : string :=
  match s with
  | EmptyString => EmptyString
  | String c s' =>
      match rstrip s' with
      | EmptyString => if is_space c then EmptyString else String c EmptyString
      | r => String c r
      end
  end.

Definition strip (s : string) : string := rstrip (lstrip s).

(** [s.split(sep)] for a one-character separator; [cur] is the field
    being read. *)
Fixpoint split_on (sep : ascii) (s cur : string) : list string :=
  match s with
  | EmptyString => [cur]
  | String c s' =>
      if Ascii.eqb c sep then cur :: split_on sep s' ""
      else split_on sep s' (cur +:+ String c "")
  end.

Definition split_lines (s : string) : list string :=
  split_on BlockingDetector.newline s "".

(** [re.sub(r'\s+', ' ', s)]: every maximal run of white space becomes
    one blank; [in_run] tells whether the previous character was white
    space. *)
Fixpoint collapse_spaces (s : string) (in_run : bool) : string :=
  match s with
  | EmptyString => EmptyString
  | String c s' =>
      if is_space c
      then if in_run then collapse_spaces s' true
           else String " " (collapse_spaces s' true)
      else String c (collapse_spaces s' false)
  end.

(** No character of the string is white space. *)
Fixpoint no_space (s : string) : bool :=
  match s with
  | EmptyString => true
  | String c s' => negb (is_space c) && no_space s'
  end.

(** The fields of [split()] are non-empty and free of white space. *)
Definition word (w : string) : Prop := truthy_str w = true /\ no_space w = true.

End PyMore.

(** ** src/crawler/parsers/base_parser.py: [clean_text], statement by
    statement *)

Module BaseParser.
Import Py.
Import PyMore.

Definition clean_text (text : string) : string :=
  if negb (truthy_str text) then ""
  else
    let lines := map strip (split_lines text) in
    let lines := List.filter truthy_str lines in
    let cleaned := Parsers.join_space lines in
    let cleaned := collapse_spaces cleaned false in
    strip cleaned.

End BaseParser.

(** ** src/crawler/base_crawler.py: retries and the robots.txt cache *)

Module Robots.
Import Py.

(** An attempt that the retry strategy of [_create_session] repeats. *)
Definition retryable (a : BaseCrawler.attempt) : bool :=
  match a with
  | BaseCrawler.ConnError => true
  | BaseCrawler.Resp status _ => BaseCrawler.forced status
  end.

Section Cache.
(** A parsed robots.txt ([RobotFileParser] after [read]). *)
Variable robots : Type.
(** [f"{parsed.scheme}://{parsed.netloc}"] of [urlparse(url)]. *)
Variable domain_of : string -> string.
(** [set_url(urljoin(domain, '/robots.txt'))] and [read()]; [None] when
    the read raises. *)
Variable read_robots : string -> option robots.
(** [robot_parser.can_fetch(user_agent, url)]. *)
Variable allows : robots -> string -> string -> bool.
Variable user_agent : string.

(** [BaseCrawler.can_fetch], with [self.robots_cache] passed in and
    out. *)
Definition can_fetch (cache : gmap string (option robots)) (url : string)
  : gmap string (option robots) * bool :=
  let domain := domain_of url in
  let cache' :=
    match cache !! domain with
    | Some _ => cache
    | None => <[domain := read_robots domain]> cache
    end in
  match cache' !! domain with
  | Some (Some robot_parser) => (cache', allows robot_parser user_agent url)
  | _ => (cache', true)
  end.
End Cache.

End Robots.

(** ** src/storage/mongo.py: the unique index on documents *)

Module Index.
Import Mongo.

Definition doc_key (x : Document) : string * string :=
  (doc_url x, doc_source_id x).

(** [documents.create_index([("url", 1), ("source_id", 1)], unique=True)]
    as a property of the collection. *)
Definition unique_documents (d : db) : Prop :=
  List.NoDup (map doc_key (documents d)).

End Index.

(** ** src/crawler/parsers/txt_parser.py *)

Module TxtParser.
Import Py.
Import PyMore.

(** The loop of [_extract_title] over the lines of the text. *)
Fixpoint first_title_line (lines : list string) : option string :=
  match lines with
  | [] => None
  | line :: rest =>
      let l := strip line in
      if truthy_str l && (String.length l <? 200)%nat then Some l
      else first_title_line rest
  end.

Section Txt.
(** [Path(urlparse(url).path).stem]; [None] when it raises. *)
Variable url_stem : string -> option string.
(** [BaseParser.decode_content] and [BaseParser.detect_encoding]. *)
Variable decode_content : bytes -> string.
Variable detect_encoding : bytes -> string.

Definition _extract_title (text url : string) : option string :=
  match first_title_line (split_lines text) with
  | Some l => Some l
  | None =>
      match url_stem url with
      | Some filename => if truthy_str filename then Some filename else None
      | None => None
      end
  end.

(** [TXTParser.parse]; the [ValueError] for an empty file is re-raised by
    the last [except] clause. *)
Definition parse (content : bytes) (u : string) : result Parsers.ParserResult :=
  let text := decode_content content in
  if negb (truthy_str text)
  then Raise (ValueError "Text parsing failed: Empty text file")
  else Ok (Parsers.mk_ParserResult u "txt" text (Parsers.clean_text text)
             (_extract_title text u) None None 0
             [ ("file_size", str_of_int (Z.of_nat (String.length content)));
               ("encoding", detect_encoding content) ]).
End Txt.

End TxtParser.

(** ** src/crawler/scheduler.py: job management *)

Module Jobs.
Import Py.
Import Mongo.
Import CrawlScheduler.

(** The scheduler with the ids of its paused jobs (APScheduler keeps a
    paused job in the store with no next run time). *)
Record sched : Type := {
  core : state;
  paused : gset string
}.

Definition scheduled_id (source_id : string) : string := "crawl_" +:+ source_id.

Definition has_id (jid : string) (j : job) : bool := String.eqb (job_id j) jid.

Definition has_job (s : sched) (jid : string) : bool :=
  existsb (has_id jid) (jobs (core s)).

Definition with_jobs (s : state) (js : list job) : state :=
  {| st_db := st_db s; jobs := js; active_crawls := active_crawls s;
     executing := executing s |}.

Definition with_db (s : state) (d : db) : state :=
  {| st_db := d; jobs := jobs s; active_crawls := active_crawls s;
     executing := executing s |}.

(** [scheduler.remove_job(job_id)]; [None] stands for [JobLookupError]. *)
Definition remove_job (s : sched) (jid : string) : option sched :=
  if has_job s jid
  then Some {| core := with_jobs (core s)
                         (List.filter (fun j => negb (has_id jid j)) (jobs (core s)));
               paused := paused s ∖ {[jid]} |}
  else None.

(** [scheduler.pause_job(job_id)] and [scheduler.resume_job(job_id)]. *)
Definition pause_job (s : sched) (jid : string) : option sched :=
  if has_job s jid
  then Some {| core := core s; paused := paused s ∪ {[jid]} |}
  else None.

Definition resume_job (s : sched) (jid : string) : option sched :=
  if has_job s jid
  then Some {| core := core s; paused := paused s ∖ {[jid]} |}
  else None.

(** [scheduler.add_job(..., id=job_id, replace_existing=True)]. *)
Definition add_job_replacing (s : sched) (j : job) : sched :=
  {| core := with_jobs (core s)
               (List.filter (fun x => negb (has_id (job_id j) x)) (jobs (core s)) ++ [j]);
     paused := paused s ∖ {[job_id j]} |}.

Definition remove_source_job (s : sched) (source_id : string) : sched * bool :=
  match remove_job s (scheduled_id source_id) with
  | Some s' => (s', true)
  | None => (s, false)
  end.

Definition set_status_only (st : CrawlStatus) : updates :=
  {| set_status := Some st; set_last_error := None; set_total_documents := None |}.

Definition pause_source_job (s : sched) (source_id : string) : sched * bool :=
  match pause_job s (scheduled_id source_id) with
  | Some s' =>
      ({| core := with_db (core s')
                    (update_source (st_db (core s')) source_id (set_status_only PAUSED));
          paused := paused s' |}, true)
  | None => (s, false)
  end.

Definition resume_source_job (s : sched) (source_id : string) : sched * bool :=
  match resume_job s (scheduled_id source_id) with
  | Some s' =>
      ({| core := with_db (core s')
                    (update_source (st_db (core s')) source_id (set_status_only IDLE));
          paused := paused s' |}, true)
  | None => (s, false)
  end.

Section Cron.
(** [CronTrigger(minute=..., hour=..., day=..., month=..., day_of_week=...)]
    accepts the five fields ([false]: it raises). *)
Variable cron_trigger_ok : list string -> bool.

Definition add_source_job (s : sched) (source_id : string) : sched * bool :=
  match get_source (st_db (core s)) source_id with
  | None => (s, false)
  | Some source =>
      if negb (enabled (config source)) then (s, false)
      else
        let s1 := fst (remove_source_job s source_id) in
        let cron_parts := split (frequency (config source)) in
        if negb (List.length cron_parts =? 5)%nat then (s1, false)
        else if negb (cron_trigger_ok cron_parts) then (s1, false)
        else
          (add_job_replacing s1
             {| job_id := scheduled_id source_id;
                job_name := "Crawl: " +:+ name source;
                job_args := source_id;
                job_trigger := Some (frequency (config source)) |}, true)
  end.
End Cron.


End Jobs.

(** ** src/api/crawler.py and src/api/sources.py: the endpoints *)

Module Api.
Import Py.
Import Mongo.
Import CrawlScheduler.
Import Jobs.

(** [POST /start/{source_id}]: the scheduler afterwards and the HTTP
    status of the answer.  The [HTTPException] raised inside the [try]
    is caught by [except Exception] and raised again with status 500. *)
Definition start_crawl (s : state) (now source_id : string) : state * Z :=
  match get_source (st_db s) source_id with
  | None => (s, 404%Z)
  | Some source =>
      match status source with
      | RUNNING => (s, 409%Z)
      | _ =>
          match trigger_source_crawl s now source_id with
          | (s', true) => (s', 200%Z)
          | (s', false) => (s', 500%Z)
          end
      end
  end.

(** [POST /stop/{source_id}]; the boolean tells whether a job was
    paused. *)
Definition stop_crawl (s : sched) (source_id : string) : sched * Z * bool :=
  match get_source (st_db (core s)) source_id with
  | None => (s, 404%Z, false)
  | Some _ =>
      let '(s', success) := pause_source_job s source_id in (s', 200%Z, success)
  end.

Section Cron.
Variable cron_trigger_ok : list string -> bool.

(** [POST /resume/{source_id}]: a job that cannot be resumed is scheduled
    anew. *)
Definition resume_crawl (s : sched) (source_id : string) : sched * Z :=
  match get_source (st_db (core s)) source_id with
  | None => (s, 404%Z)
  | Some _ =>
      match resume_source_job s source_id with
      | (s', true) => (s', 200%Z)
      | (s', false) => (fst (add_source_job cron_trigger_ok s' source_id), 200%Z)
      end
  end.
End Cron.

(** [DELETE /sources/{source_id}]. *)
Definition delete_source (s : sched) (source_id : string) : sched * Z :=
  match get_source (st_db (core s)) source_id with
  | None => (s, 404%Z)
  | Some _ =>
      let s1 := fst (remove_source_job s source_id) in
      ({| core := with_db (core s1)
                    (fst (Mongo.delete_source (st_db (core s1)) source_id));
          paused := paused s1 |}, 204%Z)
  end.

End Api.

(** ** Concrete values for the examples of these parts *)

Module Examples.
Import Py.
Import Mongo.


Definition down_server (n : nat) : BaseCrawler.attempt := BaseCrawler.Resp 503 "busy".

(** A robots.txt is the list of path prefixes it disallows. *)
Definition robots_domain (u : string) : string := substring 0 18 u.
Definition robots_unreadable (domain : string) : option (list string) := None.
Definition robots_private (domain : string) : option (list string) := Some ["/private"].
Definition robots_allows (rp : list string) (ua u : string) : bool :=
  negb (existsb (fun p => Py.contains p u) rp).

(** The scheduler of the blog, with its cron job. *)
Definition blog_job : CrawlScheduler.job :=
  {| CrawlScheduler.job_id := Jobs.scheduled_id Scenario.sid;
     CrawlScheduler.job_name := "Crawl: Tech Blog";
     CrawlScheduler.job_args := Scenario.sid;
     CrawlScheduler.job_trigger := Some "*/5 * * * *" |}.

Definition scheduled : Jobs.sched :=
  {| Jobs.core := Jobs.with_jobs Scenario.idle_scheduler [blog_job];
     Jobs.paused := ∅ |}.


Definition cron_ok (parts : list string) : bool := true.

Definition text_file : string :=
  String BlockingDetector.newline ("  Release notes  " +:+
  String BlockingDetector.newline "Version 2 is out.").

Definition no_stem (u : string) : option string := None.

(** What the HTML parser makes of the blog page. *)
Definition blog_result : Parsers.ParserResult :=
  match Parsers.parse Scenario.urljoin Scenario.decode Scenario.soup
          Scenario.body (Mongo.url Scenario.blog) with
  | Ok r => r
  | Raise _ =>
      {| Parsers.url := ""; Parsers.content_type := ""; Parsers.raw_content := "";
         Parsers.cleaned_text := ""; Parsers.title := None; Parsers.author := None;
         Parsers.language := None; Parsers.word_count := 0%Z;
         Parsers.custom_metadata := [] |}
  end.

(** A result as a faulty parser could hand it over. *)
Definition bad_result : Parsers.ParserResult :=
  {| Parsers.url := "http://example.com/bad"; Parsers.content_type := "html";
     Parsers.raw_content := "x"; Parsers.cleaned_text := "x";
     Parsers.title := None; Parsers.author := None; Parsers.language := None;
     Parsers.word_count := (-1)%Z; Parsers.custom_metadata := [] |}.

Definition good_result : Parsers.ParserResult :=
  {| Parsers.url := "http://example.com/good"; Parsers.content_type := "html";
     Parsers.raw_content := "y"; Parsers.cleaned_text := "y";
     Parsers.title := None; Parsers.author := None; Parsers.language := None;
     Parsers.word_count := 1%Z; Parsers.custom_metadata := [] |}.

End Examples.

(** * Properties *)

(** ** Blocking detector *)

Section DetectorFacts.
Import Py BlockingDetector.
Variable decode_ignore : bytes -> string.
Variable soup_find : string -> option dom_facts.

(** An HTTP block, once found, is the block type whatever the later
    checks say. *)
Lemma http_block_wins content status url h :
  detect_http_block status = Some h -> truthy_str h = true ->
  block_type (detect_all decode_ignore soup_find content status url) = Some h
  /\ http_block (detect_all decode_ignore soup_find content status url) = Some h.
Proof.
  intros Hh Ht. unfold detect_all. rewrite Hh. cbn [truthy_opt_str].
  rewrite Ht.
  destruct (detect_captcha decode_ignore soup_find content url),
           (detect_ip_ban decode_ignore content status);
    cbn; rewrite ?Ht; cbn; rewrite ?Ht; auto.
Qed.

Lemma ip_ban_on_429 content : detect_ip_ban decode_ignore content 429 = true.
Proof. reflexivity. Qed.

(** The CAPTCHA flag is the verdict of [detect_captcha], whatever the
    status. *)
Lemma captcha_flag content status url :
  captcha_detected (detect_all decode_ignore soup_find content status url)
  = detect_captcha decode_ignore soup_find content url.
Proof.
  unfold detect_all.
  destruct (truthy_opt_str (detect_http_block status)),
           (detect_captcha decode_ignore soup_find content url),
           (detect_ip_ban decode_ignore content status); reflexivity.
Qed.

(** C7.  For every body and url, [detect_all(body, 429, url)] is blocked,
    carries the HTTP block [HTTP_429_RATE_LIMIT] and the IP-ban flag, and
    reports [HTTP_429_RATE_LIMIT] as block type; the CAPTCHA flag is set
    beside them exactly when the body is a CAPTCHA page. *)
Theorem detect_all_429 (body : bytes) (url : string) :
  let r := detect_all decode_ignore soup_find body 429 url in
  blocked r = true
  /\ http_block r = Some "HTTP_429_RATE_LIMIT"
  /\ ip_ban_detected r = true
  /\ block_type r = Some "HTTP_429_RATE_LIMIT"
  /\ captcha_detected r = detect_captcha decode_ignore soup_find body url.
Proof.
  cbn zeta.
  destruct (http_block_wins body 429 url "HTTP_429_RATE_LIMIT" eq_refl eq_refl)
    as [Hbt Hhb].
  split; [|split; [exact Hhb|split; [|split; [exact Hbt|apply captcha_flag]]]].
  - unfold detect_all. rewrite ip_ban_on_429.
    destruct (detect_captcha decode_ignore soup_find body url); reflexivity.
  - unfold detect_all. rewrite ip_ban_on_429.
    destruct (detect_captcha decode_ignore soup_find body url); reflexivity.
Qed.
End DetectorFacts.

(** ** Fetcher *)

Section FetcherFacts.
Import Py BaseCrawler.
Variable can_fetch : string -> bool.
Variable server : string -> nat -> attempt.
Variable max_retries : nat.



(** A response whose status lies in 400..599 never reaches the caller:
    [raise_for_status] turns it into [None]. *)
Lemma fetch_error_status url status content :
  fst (session_get (server url) max_retries 0) = Ok (status, content) ->
  (400 <= status < 600)%Z ->
  fetch can_fetch server max_retries url false = Ok None.
Proof.
  intros Hg Hs. unfold fetch. cbn [andb]. rewrite Hg.
  unfold raise_for_status.
  replace ((400 <=? status)%Z && (status <? 600)%Z) with true; [reflexivity|].
  symmetry. apply andb_true_iff. split; [apply Z.leb_le | apply Z.ltb_lt]; lia.
Qed.

(** Whatever [fetch] returns is a body without its status code, so a
    successful fetch is a response outside 400..599. *)
Lemma fetch_some_is_success url respect b :
  fetch can_fetch server max_retries url respect = Ok (Some b) ->
  exists status,
    fst (session_get (server url) max_retries 0) = Ok (status, b)
    /\ ~ (400 <= status < 600)%Z.
Proof.
  unfold fetch. destruct (respect && negb (can_fetch url)); [discriminate|].
  destruct (fst (session_get (server url) max_retries 0)) as [[st c]|e].
  - unfold raise_for_status.
    destruct ((400 <=? st)%Z && (st <? 600)%Z) eqn:Hr; [discriminate|].
    intros H. inversion H; subst. exists st. split; [reflexivity|].
    intros [H1 H2]. apply andb_false_iff in Hr as [Hr|Hr].
    + apply Z.leb_gt in Hr. lia.
    + apply Z.ltb_ge in Hr. lia.
  - destruct e; discriminate.
Qed.
End FetcherFacts.

(** C3 (the code departs from the specification).  Against a server that answers
    [403 Forbidden], [fetch] makes one attempt, retries nothing, and
    returns [None]: the response and its status code are not surfaced. *)
Theorem fetch_403_returns_None :
  BaseCrawler.fetch Scenario.robots_allow Scenario.server_403 3
    "http://example.com/blog" true = Py.Ok None
  /\ BaseCrawler.attempts_made Scenario.server_403 3 "http://example.com/blog" = 1%nat
  /\ BaseCrawler.forced 403 = false.
Proof. repeat split. Qed.

(** ** Store: collections, deletion, documents *)

Section CollectionFacts.
Context {A : Type}.
Implicit Types (p : A -> bool) (l : list A).

Lemma delete_many_In p l x :
  In x (Mongo.delete_many p l) <-> In x l /\ p x = false.
Proof.
  unfold Mongo.delete_many. rewrite filter_In.
  destruct (p x); cbn; intuition congruence.
Qed.

Lemma delete_one_subset p l x : In x (Mongo.delete_one p l) -> In x l.
Proof.
  induction l as [|y l IH]; cbn; [tauto|].
  destruct (p y); cbn; tauto.
Qed.

Lemma delete_one_keeps p l x :
  In x l -> p x = false -> In x (Mongo.delete_one p l).
Proof.
  induction l as [|y l IH]; cbn; [tauto|].
  intros [->|Hin] Hp.
  - rewrite Hp. now left.
  - destruct (p y); [assumption|]. right. auto.
Qed.

(** With unique keys, [delete_one] on a key leaves no element with that
    key. *)
Lemma delete_one_unique (key : A -> string) (k : string) l x :
  List.NoDup (map key l) ->
  In x (Mongo.delete_one (fun y => String.eqb (key y) k) l) ->
  key x <> k.
Proof.
  induction l as [|y l IH]; cbn; [tauto|].
  intros Hnd. inversion Hnd as [|? ? Hnotin Hnd']; subst.
  destruct (String.eqb (key y) k) eqn:Hy.
  - apply String.eqb_eq in Hy. subst k. intros Hin Heq.
    apply Hnotin. rewrite <- Heq. now apply in_map.
  - apply String.eqb_neq in Hy. intros [->|Hin]; auto.
Qed.

Lemma find_update_one p (f : A -> A) l x :
  (forall y, p y = true -> p (f y) = true) ->
  List.find p l = Some x ->
  List.find p (Mongo.update_one p f l) = Some (f x).
Proof.
  intros Hf. induction l as [|y l IH]; cbn; [discriminate|].
  destruct (p y) eqn:Hy.
  - intros H. inversion H; subst. cbn. now rewrite (Hf _ Hy).
  - intros H. cbn. rewrite Hy. auto.
Qed.

Lemma find_update_one_None p (f : A -> A) l :
  List.find p l = None -> Mongo.update_one p f l = l.
Proof.
  induction l as [|y l IH]; cbn; [reflexivity|].
  destruct (p y); [discriminate|]. intros H. now rewrite IH.
Qed.
End CollectionFacts.

Section StoreFacts.
Import Py Mongo.

Lemma opt_str_eqb_spec (o : option string) (s : string) :
  opt_str_eqb o s = true <-> o = Some s.
Proof.
  destruct o as [t|]; cbn.
  - rewrite String.eqb_eq. split; congruence.
  - split; discriminate.
Qed.

(** [update_source] followed by [get_source] on the same id shows the
    updated source. *)
Lemma get_update_source d source_id u s :
  get_source d source_id = Some s ->
  get_source (update_source d source_id u) source_id = Some (apply_updates u s).
Proof.
  unfold get_source, update_source.
  destruct (ObjectId source_id) as [obj|]; [|discriminate].
  cbn. apply find_update_one. auto.
Qed.


Lemma documents_update_source d x u :
  documents (update_source d x u) = documents d.
Proof. unfold update_source. destruct (ObjectId x); reflexivity. Qed.

(** A duplicate of the unique key [(url, source_id)] makes
    [create_document] return [None] and leave the database as it is. *)
Lemma create_document_duplicate d doc :
  existsb (same_key doc) (documents d) = true ->
  create_document d doc = Ok (d, None).
Proof. intros H. unfold create_document, insert_one. now rewrite H. Qed.

Lemma create_document_fresh d doc :
  existsb (same_key doc) (documents d) = false ->
  exists d', create_document d doc = Ok (d', Some (fresh_oid d))
             /\ List.length (documents d') = S (List.length (documents d))
             /\ sources d' = sources d.
Proof.
  intros H. unfold create_document, insert_one. rewrite H.
  eexists; split; [reflexivity|]. cbn. rewrite length_app. cbn. split; [lia|reflexivity].
Qed.

(** [create_document] never raises. *)
Lemma create_document_total d doc :
  exists d' o, create_document d doc = Ok (d', o).
Proof.
  destruct (existsb (same_key doc) (documents d)) eqn:H.
  - rewrite (create_document_duplicate _ _ H); eauto.
  - destruct (create_document_fresh _ _ H) as (d' & -> & _); eauto.
Qed.

(** C5 (amended).  For a well-formed id, [delete_project] removes the
    project and every Source whose [project_id] is that id, and leaves
    the documents and crawl-stats collections untouched;
    [delete_source] removes the Source and exactly the Documents whose
    [source_id] is that id, and leaves the crawl-stats collection (and
    the projects) untouched. *)
Theorem delete_cascade (d : db) (oid obj : string) :
  ObjectId oid = Some obj ->
  List.NoDup (map project_oid (projects d)) ->
  List.NoDup (map id (sources d)) ->
  ( (forall p, In p (projects (fst (delete_project d oid)))
               <-> In p (projects d) /\ project_oid p <> obj)
    /\ (forall s, In s (sources (fst (delete_project d oid)))
                  <-> In s (sources d) /\ project_id s <> Some oid)
    /\ documents (fst (delete_project d oid)) = documents d
    /\ crawl_stats (fst (delete_project d oid)) = crawl_stats d )
  /\
  ( (forall s, In s (sources (fst (delete_source d oid)))
               <-> In s (sources d) /\ id s <> obj)
    /\ (forall x, In x (documents (fst (delete_source d oid)))
                  <-> In x (documents d) /\ doc_source_id x <> oid)
    /\ crawl_stats (fst (delete_source d oid)) = crawl_stats d
    /\ projects (fst (delete_source d oid)) = projects d ).
Proof.
  intros Hobj Hp Hs. unfold delete_project, delete_source. rewrite Hobj. cbn.
  repeat split; try tauto.
  - eapply delete_one_subset; eassumption.
  - eapply (delete_one_unique project_oid); eassumption.
  - intros [Hin Hne]. apply delete_one_keeps; [assumption|].
    now apply String.eqb_neq.
  - apply delete_many_In in H. tauto.
  - apply delete_many_In in H as [_ H]. intros Heq.
    apply opt_str_eqb_spec in Heq. congruence.
  - intros [Hin Hne]. apply delete_many_In. split; [assumption|].
    destruct (opt_str_eqb (project_id s) oid) eqn:E; [|reflexivity].
    apply opt_str_eqb_spec in E. contradiction.
  - eapply delete_one_subset; eassumption.
  - eapply (delete_one_unique id); eassumption.
  - intros [Hin Hne]. apply delete_one_keeps; [assumption|].
    now apply String.eqb_neq.
  - apply delete_many_In in H. tauto.
  - apply delete_many_In in H as [_ H]. now apply String.eqb_neq.
  - intros [Hin Hne]. apply delete_many_In. split; [assumption|].
    now apply String.eqb_neq.
Qed.
End StoreFacts.


(** Witness of [delete_cascade]: the database in which [blog] owns a
    document and a stats record. *)
Lemma delete_cascade_witness :
  Mongo.ObjectId Scenario.pid = Some Scenario.pid
  /\ Mongo.documents (fst (Mongo.delete_project Scenario.db_owned Scenario.pid))
     = Mongo.documents Scenario.db_owned
  /\ Mongo.crawl_stats (fst (Mongo.delete_source Scenario.db_owned Scenario.pid))
     = Mongo.crawl_stats Scenario.db_owned.
Proof.
  split; [reflexivity|].
  assert (H1 : List.NoDup (map Mongo.project_oid (Mongo.projects Scenario.db_owned))).
  { vm_compute. repeat constructor. intros []. }
  assert (H2 : List.NoDup (map Mongo.id (Mongo.sources Scenario.db_owned))).
  { vm_compute. repeat constructor; cbn; intuition discriminate. }
  destruct (delete_cascade Scenario.db_owned Scenario.pid Scenario.pid eq_refl H1 H2)
    as [(_ & _ & Hd & _) (_ & _ & Hs & _)].
  split; assumption.
Defined.

(** C5 (as stated, refuted).  After [delete_project] the project's source
    is gone but its document is still in the collection; after
    [delete_source] the source and its documents are gone but its
    crawl-stats record is still there. *)
Lemma delete_cascade_counterexample :
  Mongo.get_source (fst (Mongo.delete_project Scenario.db_owned Scenario.pid))
                   Scenario.sid = None
  /\ Mongo.count_documents (fst (Mongo.delete_project Scenario.db_owned Scenario.pid))
                           (Some Scenario.sid) = 1%nat
  /\ Mongo.get_source (fst (Mongo.delete_source Scenario.db_owned Scenario.sid))
                      Scenario.sid = None
  /\ Mongo.count_documents (fst (Mongo.delete_source Scenario.db_owned Scenario.sid))
                           (Some Scenario.sid) = 0%nat
  /\ existsb (fun st => String.eqb (Mongo.stats_source_id st) Scenario.sid)
             (Mongo.crawl_stats (fst (Mongo.delete_source Scenario.db_owned Scenario.sid)))
     = true.
Proof. vm_compute. repeat split. Qed.

(** ** Crawl manager *)

Section ManagerFacts.
Import Py Mongo CrawlManager.
Variable decode_ignore : bytes -> string.
Variable soup_find : string -> option BlockingDetector.dom_facts.
Variable fetch : list string -> string -> result pyobj.
Variable parse : ContentType -> parse_input -> string -> result Parsers.ParserResult.

Abbreviation loop_body := (loop_body decode_ignore soup_find fetch parse).
Abbreviation crawl_loop := (crawl_loop decode_ignore soup_find fetch parse).
Abbreviation _crawl_traditional := (_crawl_traditional decode_ignore soup_find fetch parse).
Abbreviation _crawl_social_media := (_crawl_social_media fetch parse).
Abbreviation crawl_source := (crawl_source decode_ignore soup_find fetch parse).

(** No [ParserResult] has an attribute [next_page] or [items]. *)
Lemma hasattr_next_page r : Parsers.hasattr r "next_page" = false.
Proof. reflexivity. Qed.

Lemma hasattr_items r : Parsers.hasattr r "items" = false.
Proof. reflexivity. Qed.

(** Hence the lines after a successful parse never enqueue anything. *)
Lemma record_result_queue source st rest log u content r :
  urls_to_crawl (record_result source st rest log u content r) = rest.
Proof.
  unfold record_result. cbn [urls_to_crawl]. rewrite hasattr_next_page.
  now rewrite andb_false_r.
Qed.

(** What one iteration of the loop body can change. *)
Lemma loop_body_spec source st st' b :
  loop_body source st = (st', b) ->
  urls_to_crawl st' = tl (urls_to_crawl st)
  /\ (results st' = results st \/ exists r, results st' = results st ++ [r])
  /\ pages_crawled (ls_stats st') = pages_crawled (ls_stats st)
  /\ (ls_db st' = ls_db st
      \/ exists u, ls_db st' = update_source (ls_db st) (id source) u)
  /\ (fetched st' = fetched st
      \/ exists u rest, urls_to_crawl st = u :: rest
                        /\ fetched st' = fetched st ++ [u]).
Proof.
  unfold CrawlManager.loop_body.
  destruct (urls_to_crawl st) as [|u rest] eqn:Hq.
  { intros H; inversion H; subst. rewrite Hq. auto 10. }
  repeat match goal with
         | |- context [match ?x with _ => _ end] => destruct x
         | |- context [if ?x then _ else _] => destruct x
         end;
    intros H; inversion H; subst; clear H;
    rewrite ?record_result_queue; cbn;
    (repeat split; eauto 10).
Qed.

Lemma loop_cond_true source st :
  loop_cond source st = true ->
  urls_to_crawl st <> []
  /\ (List.length (results st) < max_hits (config source))%nat.
Proof.
  unfold loop_cond. destruct (urls_to_crawl st); [discriminate|].
  intros H. apply Nat.ltb_lt in H. split; [discriminate|assumption].
Qed.

(** Every iteration decreases [measure]. *)
Lemma loop_body_decreases source st st' b :
  loop_cond source st = true ->
  loop_body source st = (st', b) ->
  (measure source st' < measure source st)%nat.
Proof.
  intros Hc Hb. apply loop_cond_true in Hc as [Hq Hlt].
  apply loop_body_spec in Hb as (Hu & Hr & _).
  unfold measure. rewrite Hu.
  destruct (urls_to_crawl st) as [|u rest]; [contradiction|]. cbn [tl List.length].
  destruct Hr as [-> | [r ->]]; [lia|]. rewrite length_app. cbn. lia.
Qed.

(** The loop runs to its end: any bound at least [measure] gives the
    same final state, in which the loop condition is false or the loop
    was left by [break]. *)
Lemma crawl_loop_fuel source fuel1 fuel2 st :
  (measure source st <= fuel1)%nat -> (measure source st <= fuel2)%nat ->
  crawl_loop fuel1 source st = crawl_loop fuel2 source st.
Proof.
  revert fuel2 st. induction fuel1 as [|f1 IH]; intros fuel2 st H1 H2.
  - destruct fuel2 as [|f2]; [reflexivity|]. cbn.
    destruct (loop_cond source st) eqn:Hc; [|reflexivity].
    apply loop_cond_true in Hc as [Hq _]. unfold measure in H1.
    destruct (urls_to_crawl st); [contradiction|]. cbn in H1. lia.
  - destruct fuel2 as [|f2]; cbn.
    + destruct (loop_cond source st) eqn:Hc; [|reflexivity].
      apply loop_cond_true in Hc as [Hq _]. unfold measure in H2.
      destruct (urls_to_crawl st); [contradiction|]. cbn in H2. lia.
    + destruct (loop_cond source st) eqn:Hc; [|reflexivity].
      destruct (loop_body source st) as [st' b] eqn:Hb.
      destruct b; [|reflexivity].
      pose proof (loop_body_decreases _ _ _ _ Hc Hb).
      apply IH; lia.
Qed.

(** An invariant of the loop body is an invariant of the loop. *)
Lemma crawl_loop_invariant (P : loop_state -> Prop) source :
  (forall st st' b, P st -> loop_cond source st = true ->
                    loop_body source st = (st', b) -> P st') ->
  forall fuel st, P st -> P (crawl_loop fuel source st).
Proof.
  intros Hstep. induction fuel as [|f IH]; intros st HP; cbn; [assumption|].
  destruct (loop_cond source st) eqn:Hc; [|assumption].
  destruct (loop_body source st) as [st' b] eqn:Hb.
  pose proof (Hstep _ _ _ HP Hc Hb). destruct b; auto.
Qed.

(** The traditional loop collects at most [max_hits] results and leaves
    [pages_crawled] alone. *)
Lemma crawl_traditional_results d source stats :
  (List.length (results (_crawl_traditional d source stats))
   <= max_hits (config source))%nat
  /\ pages_crawled (ls_stats (_crawl_traditional d source stats))
     = pages_crawled stats.
Proof.
  unfold CrawlManager._crawl_traditional.
  apply (crawl_loop_invariant
           (fun st => (List.length (results st) <= max_hits (config source))%nat
                      /\ pages_crawled (ls_stats st) = pages_crawled stats)).
  - intros st st' b [Hlen Hpc] Hc Hb.
    apply loop_cond_true in Hc as [_ Hlt].
    apply loop_body_spec in Hb as (_ & Hr & Hp & _).
    split; [|congruence].
    destruct Hr as [-> | [r ->]]; [lia|]. rewrite length_app. cbn. lia.
  - cbn. split; [lia|reflexivity].
Qed.

(** The social-media path returns at most [max_hits] results and leaves
    [pages_crawled] alone. *)
Lemma crawl_social_results source stats :
  (List.length (fst (fst (_crawl_social_media source stats)))
   <= max_hits (config source))%nat
  /\ pages_crawled (snd (fst (_crawl_social_media source stats)))
     = pages_crawled stats.
Proof.
  unfold CrawlManager._crawl_social_media.
  repeat match goal with
         | |- context [match ?x with _ => _ end] => destruct x
         | |- context [if ?x then _ else _] => destruct x
         end; cbn [fst snd List.length];
    (split; [ first [ apply firstn_le_length | rewrite length_firstn; lia | lia ]
            | reflexivity ]).
Qed.

(** [update_source] on any id keeps every source findable. *)
Lemma get_source_after_update d x u source_id s :
  get_source d source_id = Some s ->
  exists s', get_source (update_source d x u) source_id = Some s'.
Proof.
  unfold get_source, update_source.
  destruct (ObjectId source_id) as [obj|]; [|discriminate].
  destruct (ObjectId x) as [objx|]; [|eauto]. cbn.
  generalize (sources d). intros l. induction l as [|y l IH]; cbn; [discriminate|].
  destruct (String.eqb (id y) objx) eqn:Hx.
  - cbn. destruct (String.eqb (id y) obj) eqn:Hy; [eauto|].
    intros H. eauto.
  - cbn. destruct (String.eqb (id y) obj) eqn:Hy; [eauto|]. auto.
Qed.

(** The traditional loop keeps the source findable and does not touch
    the documents. *)
Lemma crawl_traditional_db d source stats source_id s :
  get_source d source_id = Some s ->
  (exists s', get_source (ls_db (_crawl_traditional d source stats)) source_id
              = Some s')
  /\ documents (ls_db (_crawl_traditional d source stats)) = documents d.
Proof.
  intros Hs. unfold CrawlManager._crawl_traditional.
  apply (crawl_loop_invariant
           (fun st => (exists s', get_source (ls_db st) source_id = Some s')
                      /\ documents (ls_db st) = documents d)).
  - intros st st' b [[s0 Hs0] Hd] _ Hb.
    apply loop_body_spec in Hb as (_ & _ & _ & Hdb & _).
    destruct Hdb as [-> | [u ->]]; [eauto|].
    split; [eapply get_source_after_update; eassumption|].
    rewrite <- Hd. unfold update_source.
    destruct (ObjectId (id source)); reflexivity.
  - cbn. eauto.
Qed.

(** [_store_document] leaves the sources alone, adds at most one
    document, and adds none when the key is already there. *)
Lemma store_document_spec d source r d' :
  _store_document d source r = Ok d' ->
  sources d' = sources d
  /\ (List.length (documents d') <= S (List.length (documents d)))%nat
  /\ (List.length (documents d) <= List.length (documents d'))%nat.
Proof.
  unfold _store_document.
  destruct (Parsers.word_count r <? 0)%Z; [discriminate|].
  match goal with |- context [create_document d ?doc] => set (document := doc) end.
  destruct (existsb (same_key document) (documents d)) eqn:Hk.
  - rewrite (create_document_duplicate _ _ Hk). intros H. inversion H; subst.
    repeat split; lia.
  - destruct (create_document_fresh _ _ Hk) as (d1 & -> & Hlen & Hsrc).
    intros H. inversion H; subst. repeat split; [assumption|lia|lia].
Qed.

(** The store loop: the local [documents_stored] and [pages_crawled]
    move together, [pages_crawled] never passes [max_hits], and the
    collection grows by no more than [documents_stored]. *)
Lemma store_results_spec source rs : forall d stats k d' stats' k',
  store_results source rs d stats k = (d', stats', k') ->
  (pages_crawled stats <= max_hits (config source))%nat ->
  sources d' = sources d
  /\ (k <= k')%nat
  /\ (k' - k = pages_crawled stats' - pages_crawled stats)%nat
  /\ (pages_crawled stats <= pages_crawled stats')%nat
  /\ (pages_crawled stats' <= max_hits (config source))%nat
  /\ (List.length (documents d') <= List.length (documents d) + (k' - k))%nat.
Proof.
  induction rs as [|r rest IH]; intros d stats k d' stats' k' H Hle; cbn in H.
  - inversion H; subst. repeat split; lia.
  - destruct (max_hits (config source) <=? pages_crawled stats)%nat eqn:Hm.
    + inversion H; subst. repeat split; lia.
    + apply Nat.leb_gt in Hm.
      destruct (_store_document d source r) as [d1|e] eqn:Hst.
      * apply IH in H; [|cbn; lia]. cbn in H.
        apply store_document_spec in Hst as (Hs1 & Hl1 & _).
        destruct H as (Hs & Hk & Hkk & Hp & Hmx & Hl).
        repeat split; try lia. congruence.
      * apply IH in H; [|cbn; lia]. cbn in H.
        destruct H as (Hs & Hk & Hkk & Hp & Hmx & Hl).
        repeat split; try lia. assumption.
Qed.

(** Once [pages_crawled] has reached [max_hits] the store loop stores
    nothing more. *)
Lemma store_results_stops source rs d stats k :
  (max_hits (config source) <= pages_crawled stats)%nat ->
  store_results source rs d stats k = (d, stats, k).
Proof.
  intros H. destruct rs as [|r rest]; cbn; [reflexivity|].
  apply Nat.leb_le in H. now rewrite H.
Qed.

(** The two ways [crawl_source] ends on an existing source: the
    division by a zero rate, or the run through crawl, store loop and
    final update. *)
Lemma crawl_source_cases d source_id source :
  get_source d source_id = Some source ->
  (rate_limit_per_minute (config source) = 0%nat
   /\ documents (run_db (crawl_source d source_id)) = documents d
   /\ run_results (crawl_source d source_id) = []
   /\ documents_stored (crawl_source d source_id) = 0%nat
   /\ outcome (crawl_source d source_id)
      = Ok (add_error "float division by zero" (new_stats source_id)))
  \/
  (exists d2 rs stats1 log d3 stats2 stored,
      crawl_source d source_id
      = {| run_db := save_crawl_stats
                       (update_source d3 source_id
                          {| set_status := Some COMPLETED;
                             set_last_error := Some None;
                             set_total_documents :=
                               Some (total_documents source + stored) |})
                       stats2;
           outcome := Ok stats2; run_fetched := log; run_results := rs;
           documents_stored := stored |}
      /\ store_results source rs d2 stats1 0 = (d3, stats2, stored)
      /\ (List.length rs <= max_hits (config source))%nat
      /\ pages_crawled stats1 = 0%nat
      /\ documents d2 = documents d
      /\ (exists s', get_source d2 source_id = Some s')).
Proof.
  intros Hs. unfold CrawlManager.crawl_source. rewrite Hs.
  destruct (rate_limit_per_minute (config source) =? 0)%nat eqn:Hr.
  { left. apply Nat.eqb_eq in Hr. cbn. repeat split; try assumption.
    unfold update_source. destruct (ObjectId source_id); reflexivity. }
  right.
  set (d1 := update_source d source_id _).
  assert (Hd1 : documents d1 = documents d).
  { unfold d1, update_source. destruct (ObjectId source_id); reflexivity. }
  assert (Hs1 : exists s', get_source d1 source_id = Some s').
  { eapply get_source_after_update; eassumption. }
  destruct (is_social (content_type source)).
  - destruct (CrawlManager._crawl_social_media fetch parse source (new_stats source_id))
      as [[rs st] log] eqn:Hc.
    pose proof (crawl_social_results source (new_stats source_id)) as [Hlen Hpc].
    rewrite Hc in Hlen, Hpc. cbn in Hlen, Hpc.
    destruct (store_results source rs d1 st 0) as [[d3 stats2] stored] eqn:Hst.
    exists d1, rs, st, log, d3, stats2, stored. auto 10.
  - pose proof (crawl_traditional_results d1 source (new_stats source_id)) as [Hlen Hpc].
    destruct Hs1 as [s1 Hs1].
    destruct (crawl_traditional_db d1 source (new_stats source_id) source_id s1 Hs1)
      as [Hfind Hdocs].
    set (lst := CrawlManager._crawl_traditional decode_ignore soup_find fetch parse
                  d1 source (new_stats source_id)) in *.
    destruct (store_results source (results lst) (ls_db lst) (ls_stats lst) 0)
      as [[d3 stats2] stored] eqn:Hst.
    exists (ls_db lst), (results lst), (ls_stats lst), (fetched lst), d3, stats2, stored.
    repeat split; try assumption; congruence.
Qed.

(** C6.  For every run of [crawl_source] on an existing source: the
    store loop's [documents_stored] is at most [max_hits], so is the
    number of results handed to it, so is the returned [pages_crawled],
    and the documents collection grows by at most [documents_stored];
    the traditional loop collects at most [max_hits] results, the
    social-media path returns at most [max_hits], and the store loop
    stops as soon as [pages_crawled] has reached [max_hits]. *)
Theorem crawl_source_max_hits (d : db) (source_id : string) (source : Source) :
  get_source d source_id = Some source ->
  (documents_stored (crawl_source d source_id) <= max_hits (config source))%nat
  /\ (List.length (run_results (crawl_source d source_id))
      <= max_hits (config source))%nat
  /\ (forall st, outcome (crawl_source d source_id) = Ok st ->
                 (pages_crawled st <= max_hits (config source))%nat)
  /\ (List.length (documents (run_db (crawl_source d source_id)))
      <= List.length (documents d) + documents_stored (crawl_source d source_id))%nat
  /\ (forall d0 stats,
        (List.length (results (_crawl_traditional d0 source stats))
         <= max_hits (config source))%nat)
  /\ (forall stats,
        (List.length (fst (fst (_crawl_social_media source stats)))
         <= max_hits (config source))%nat)
  /\ (forall rs d0 stats k,
        (max_hits (config source) <= pages_crawled stats)%nat ->
        store_results source rs d0 stats k = (d0, stats, k)).
Proof.
  intros Hs.
  assert (Htrad := fun d0 stats => proj1 (crawl_traditional_results d0 source stats)).
  assert (Hsoc := fun stats => proj1 (crawl_social_results source stats)).
  assert (Hstop := store_results_stops source).
  destruct (crawl_source_cases d source_id source Hs)
    as [(_ & Hd & Hrs & Hk & Ho)
       | (d2 & rs & stats1 & log & d3 & stats2 & stored & -> & Hst & Hlen & Hpc & Hd & _)].
  - rewrite Hd, Hrs, Hk, Ho. cbn.
    split; [lia|]. split; [lia|]. split.
    { intros st H; inversion H; subst; cbn; lia. }
    split; [lia|]. auto.
  - apply store_results_spec in Hst as (_ & _ & Hkk & _ & Hmx & Hl); [|lia].
    cbn [documents_stored run_results outcome run_db].
    split; [lia|]. split; [assumption|]. split.
    { intros st H; inversion H; subst; assumption. }
    split; [|auto].
    cbn [save_crawl_stats documents]. rewrite documents_update_source.
    rewrite <- Hd. lia.
Qed.

Lemma get_source_sources d d' source_id :
  sources d' = sources d -> get_source d' source_id = get_source d source_id.
Proof. intros H. unfold get_source. now rewrite H. Qed.

(** Whatever happened during the crawl, a run that gets as far as the
    final update leaves the source [completed] with [last_error]
    cleared and [total_documents] raised by [documents_stored]. *)
Lemma crawl_source_ends_completed d source_id source :
  get_source d source_id = Some source ->
  rate_limit_per_minute (config source) <> 0%nat ->
  exists s',
    get_source (run_db (crawl_source d source_id)) source_id = Some s'
    /\ status s' = COMPLETED
    /\ last_error s' = None
    /\ total_documents s'
       = (total_documents source + documents_stored (crawl_source d source_id))%nat.
Proof.
  intros Hs Hrate.
  destruct (crawl_source_cases d source_id source Hs)
    as [(Hz & _)
       | (d2 & rs & stats1 & log & d3 & stats2 & stored & -> & Hst & _ & Hpc & _ & [s2 Hs2])];
    [contradiction|].
  apply store_results_spec in Hst as (Hsrc & _); [|lia].
  cbn [run_db documents_stored].
  change (get_source (save_crawl_stats ?x stats2) source_id)
    with (get_source x source_id).
  rewrite <- (get_source_sources d2 d3 source_id Hsrc) in Hs2.
  rewrite (get_update_source _ _ _ _ Hs2).
  eexists; split; [reflexivity|]. cbn. auto.
Qed.

(** A result whose key is already in the collection is counted by the
    store loop like a new one. *)
Lemma store_results_counts_duplicate source r d stats k :
  (0 <= Parsers.word_count r)%Z ->
  (pages_crawled stats < max_hits (config source))%nat ->
  existsb (fun x => String.eqb (Parsers.url r) (doc_url x)
                    && String.eqb (id source) (doc_source_id x))
          (documents d) = true ->
  store_results source [r] d stats k = (d, incr_crawled stats, S k).
Proof.
  intros Hwc Hlt Hdup. cbn.
  apply Nat.leb_gt in Hlt. rewrite Hlt.
  unfold _store_document. apply Z.ltb_ge in Hwc. rewrite Hwc.
  rewrite create_document_duplicate; [reflexivity|exact Hdup].
Qed.

(** The traditional loop hands nothing but the start URL to [fetch],
    whatever the parser found on the page. *)
Lemma crawl_traditional_fetches_only_start d source stats :
  fetched (_crawl_traditional d source stats) = [url source]
  \/ fetched (_crawl_traditional d source stats) = [].
Proof.
  unfold CrawlManager._crawl_traditional, measure. cbn [urls_to_crawl results List.length].
  rewrite Nat.sub_0_r. cbn [Nat.add CrawlManager.crawl_loop].
  match goal with |- context [loop_cond source ?s] => set (st0 := s) end.
  destruct (loop_cond source st0); [|now right].
  destruct (loop_body source st0) as [st' b] eqn:Hb.
  apply loop_body_spec in Hb as (Hu & _ & _ & _ & Hf). cbn in Hu, Hf.
  assert (Hst' : fetched st' = [url source] \/ fetched st' = []).
  { destruct Hf as [->|(u & rest & Heq & ->)]; [now right|].
    inversion Heq; subst. now left. }
  destruct b; [|assumption].
  destruct (max_hits (config source)) as [|f]; cbn; [assumption|].
  unfold loop_cond. rewrite Hu. assumption.
Qed.
End ManagerFacts.

(** With the fetcher that the manager installs, a fetched page is [bytes]
    and has no [content] attribute: the traditional loop never reaches the
    detector or the parser, so it returns no result and leaves the
    database as it found it. *)
Lemma installed_fetcher_never_parses decode_ignore soup_find parse
      can_fetch server max_retries d source stats :
  CrawlManager.results
    (CrawlManager._crawl_traditional decode_ignore soup_find
       (CrawlManager.base_fetch can_fetch server max_retries) parse d source stats) = []
  /\ CrawlManager.ls_db
       (CrawlManager._crawl_traditional decode_ignore soup_find
          (CrawlManager.base_fetch can_fetch server max_retries) parse d source stats) = d.
Proof.
  unfold CrawlManager._crawl_traditional.
  apply (crawl_loop_invariant decode_ignore soup_find
           (CrawlManager.base_fetch can_fetch server max_retries) parse
           (fun st => CrawlManager.results st = [] /\ CrawlManager.ls_db st = d)).
  - intros st st' b [Hr Hd] _. unfold CrawlManager.loop_body.
    destruct (CrawlManager.urls_to_crawl st) as [|u rest].
    { intros H; inversion H; subst; auto. }
    destruct (bool_decide (u ∈ CrawlManager.crawled_urls st)).
    { intros H; inversion H; subst; auto. }
    unfold CrawlManager.base_fetch.
    destruct (BaseCrawler.fetch can_fetch server max_retries u true) as [[body|]|e];
      cbn.
    + destruct (Py.truthy_str body); cbn; intros H; inversion H; subst; auto.
    + intros H; inversion H; subst; auto.
    + intros H; inversion H; subst; auto.
  - cbn. auto.
Qed.

(** Witness of [crawl_source_max_hits]: the first run over the blog. *)
Lemma crawl_source_max_hits_witness :
  Mongo.get_source Scenario.db0 Scenario.sid = Some Scenario.blog
  /\ (CrawlManager.documents_stored Scenario.first_run
      <= Mongo.max_hits Scenario.cfg)%nat.
Proof.
  split; [reflexivity|].
  exact (proj1 (crawl_source_max_hits Scenario.decode Scenario.no_dom
                  Scenario.fetch_ok Scenario.html_parse
                  Scenario.db0 Scenario.sid Scenario.blog eq_refl)).
Defined.



(** The parser absolutises an href only when it starts with [/]; a link
    relative to the current directory is not reported at all. *)
Lemma relative_href_not_absolutised :
  Parsers._detect_next_page Scenario.urljoin Scenario.relative_page
                            "http://example.com/blog/" = None.
Proof. reflexivity. Qed.


(** ** Scheduler *)

Section SchedulerFacts.
Import Py Mongo CrawlScheduler.
Variable decode_ignore : bytes -> string.
Variable soup_find : string -> option BlockingDetector.dom_facts.
Variable fetch : list string -> string -> result CrawlManager.pyobj.
Variable parse : ContentType -> CrawlManager.parse_input -> string
                 -> result Parsers.ParserResult.

Abbreviation crawl_source := (crawl_source decode_ignore soup_find fetch parse).
Abbreviation _execute_crawl := (_execute_crawl decode_ignore soup_find fetch parse).
Abbreviation _crawl_job := (_crawl_job decode_ignore soup_find fetch parse).
Abbreviation step := (step decode_ignore soup_find fetch parse).
Abbreviation step_atomic := (step_atomic decode_ignore soup_find fetch parse).
Abbreviation run_schedule := (run_schedule decode_ignore soup_find fetch parse).
Abbreviation run_atomic := (run_atomic decode_ignore soup_find fetch parse).

Lemma is_active_set s a b c :
  is_active (set_active s a b) c = if decide (a = c) then b else is_active s c.
Proof.
  unfold is_active, set_active. cbn. rewrite lookup_insert.
  destruct (decide (a = c)); reflexivity.
Qed.

(** A job whose source is marked returns at once: nothing is crawled
    and nothing changes. *)
Lemma crawl_job_skips_when_active s source_id :
  is_active s source_id = true -> _crawl_job s source_id = s.
Proof. intros H. unfold CrawlScheduler._crawl_job. now rewrite H. Qed.

(** A manual trigger on a marked source is rejected. *)
Lemma trigger_rejected_when_active s now source_id :
  is_active s source_id = true ->
  trigger_source_crawl s now source_id = (s, false).
Proof. intros H. unfold trigger_source_crawl. now rewrite H. Qed.

(** [_execute_crawl] clears the mark whether [crawl_source] returns or
    raises. *)
Lemma execute_crawl_clears_mark s source_id :
  is_active (_execute_crawl s source_id) source_id = false.
Proof.
  unfold CrawlScheduler._execute_crawl, execute_finally.
  rewrite is_active_set. now destruct (decide (source_id = source_id)).
Qed.

Lemma crawl_job_clears_mark s source_id :
  is_active s source_id = false ->
  is_active (_crawl_job s source_id) source_id = false.
Proof.
  intros H. unfold CrawlScheduler._crawl_job. rewrite H.
  apply execute_crawl_clears_mark.
Qed.

Lemma step_lookup sy i w :
  workers sy !! i = Some w ->
  shared (step sy i) = fst (statement decode_ignore soup_find fetch parse (shared sy) w)
  /\ workers (step sy i) !! i
     = Some (at_pc w (snd (statement decode_ignore soup_find fetch parse (shared sy) w)))
  /\ List.length (workers (step sy i)) = List.length (workers sy).
Proof.
  intros Hw. unfold CrawlScheduler.step. rewrite Hw. cbn.
  split; [reflexivity|]. split; [|apply length_insert].
  apply list_lookup_insert_eq. eapply lookup_lt_Some; eassumption.
Qed.

(** A worker that runs alone goes through [_crawl_job] statement by
    statement. *)
Lemma crawl_job_as_steps sy i source_id :
  workers sy !! i = Some {| w_source := source_id; w_pc := AtCheck |} ->
  is_active (shared sy) source_id = false ->
  shared (run_schedule sy [i; i; i; i]) = _crawl_job (shared sy) source_id
  /\ workers (run_schedule sy [i; i; i; i]) !! i
     = Some {| w_source := source_id; w_pc := Returned |}.
Proof.
  intros Hw Ha. unfold CrawlScheduler.run_schedule. cbn [fold_left].
  destruct (step_lookup sy i _ Hw) as (Hs1 & Hw1 & _).
  unfold statement in Hs1, Hw1. cbn in Hs1, Hw1. rewrite Ha in Hs1, Hw1.
  cbn in Hs1, Hw1.
  destruct (step_lookup _ i _ Hw1) as (Hs2 & Hw2 & _).
  unfold statement in Hs2, Hw2. cbn in Hs2, Hw2.
  destruct (step_lookup _ i _ Hw2) as (Hs3 & Hw3 & _).
  unfold statement in Hs3, Hw3. cbn in Hs3, Hw3.
  destruct (step_lookup _ i _ Hw3) as (Hs4 & Hw4 & _).
  unfold statement in Hs4, Hw4. cbn in Hs4, Hw4.
  split; [|exact Hw4].
  rewrite Hs4, Hs3, Hs2, Hs1.
  unfold CrawlScheduler._crawl_job. rewrite Ha. reflexivity.
Qed.

Lemma crawl_job_skip_as_step sy i source_id :
  workers sy !! i = Some {| w_source := source_id; w_pc := AtCheck |} ->
  is_active (shared sy) source_id = true ->
  shared (step sy i) = shared sy
  /\ workers (step sy i) !! i = Some {| w_source := source_id; w_pc := Returned |}.
Proof.
  intros Hw Ha. destruct (step_lookup sy i _ Hw) as (Hs1 & Hw1 & _).
  unfold statement in Hs1, Hw1. cbn in Hs1, Hw1. rewrite Ha in Hs1, Hw1.
  split; assumption.
Qed.

(** *** Indivisible check-and-mark

    When no other worker moves between the check and the marking of
    [_crawl_job], a source never has two runs in progress. *)

Lemma filter_length_insert {A} (P : A -> bool) (l : list A) : forall i w w',
  l !! i = Some w ->
  (List.length (List.filter P (<[i := w']> l)) + Nat.b2n (P w)
   = List.length (List.filter P l) + Nat.b2n (P w'))%nat.
Proof.
  induction l as [|y l IH]; intros [|i] w w' Hl; try discriminate.
  - cbn in Hl. inversion Hl; subst. cbn.
    destruct (P w), (P w'); cbn; lia.
  - cbn in Hl. cbn. specialize (IH i w w' Hl).
    destruct (P y); cbn [List.length Nat.add]; [f_equal|]; exact IH.
Qed.

Lemma step_eq sy i w :
  workers sy !! i = Some w ->
  step sy i
  = {| shared := fst (statement decode_ignore soup_find fetch parse (shared sy) w);
       workers := <[i := at_pc w (snd (statement decode_ignore soup_find fetch parse
                                                 (shared sy) w))]> (workers sy) |}.
Proof. intros Hw. unfold CrawlScheduler.step. now rewrite Hw. Qed.

(** How a move of worker [i] changes the number of runs of source [a]. *)
Lemma active_runs_insert sy s' i w w' a :
  workers sy !! i = Some w ->
  (active_runs {| shared := s'; workers := <[i := w']> (workers sy) |} a
   + Nat.b2n (in_run w && String.eqb (w_source w) a)
   = active_runs sy a + Nat.b2n (in_run w' && String.eqb (w_source w') a))%nat.
Proof.
  intros Hw. unfold active_runs. cbn [workers].
  apply (filter_length_insert
           (fun w => in_run w && String.eqb (w_source w) a) _ _ _ _ Hw).
Qed.

(** The effect of replacing worker [i] on the invariant, by the change in
    the number of runs and in the marks. *)
Lemma exclusive_replace sy s' i w w' :
  workers sy !! i = Some w ->
  w_pc w' <> AtMark ->
  Forall (fun w => w_pc w <> AtMark) (workers sy) ->
  (forall a n,
      (n + Nat.b2n (in_run w && String.eqb (w_source w) a)
       = active_runs sy a + Nat.b2n (in_run w' && String.eqb (w_source w') a))%nat ->
      (n <= 1)%nat /\ (n = 1%nat -> is_active s' a = true)) ->
  exclusive {| shared := s'; workers := <[i := w']> (workers sy) |}.
Proof.
  intros Hw Hpc' Hpc Hcount. split.
  - cbn [workers]. now apply Forall_insert.
  - intros a. cbn [shared]. apply Hcount. now apply active_runs_insert.
Qed.

Lemma exclusive_step_atomic sy i :
  exclusive sy -> exclusive (step_atomic sy i).
Proof.
  intros [Hpc Hruns]. unfold CrawlScheduler.step_atomic.
  destruct (workers sy !! i) as [w|] eqn:Hw; [|split; assumption].
  assert (Hlt : (i < List.length (workers sy))%nat)
    by (eapply lookup_lt_Some; eassumption).
  assert (Hnot : w_pc w <> AtMark).
  { rewrite Forall_forall in Hpc. apply Hpc. eapply list_elem_of_lookup_2; eassumption. }
  destruct w as [src p]. cbn in Hnot.
  destruct p; [| contradiction | | |].
  - (* the check, and the marking with it *)
    rewrite (step_eq sy i _ Hw). unfold statement at 1 2.
    cbn [w_pc w_source].
    destruct (is_active (shared sy) src) eqn:Hact; cbn [fst snd at_pc w_source].
    + (* marked: the worker returns *)
      erewrite step_eq by (cbn [workers]; apply list_lookup_insert_eq; assumption).
      unfold statement. cbn [w_pc w_source fst snd shared workers at_pc].
      rewrite list_insert_insert_eq.
      apply (exclusive_replace sy _ i _ _ Hw); [discriminate|assumption|].
      intros a n Hn. cbn [in_run w_pc w_source andb Nat.b2n at_pc] in Hn.
      rewrite !Nat.add_0_r in Hn. subst n. apply Hruns.
    + (* not marked: the worker marks and enters the run *)
      erewrite step_eq by (cbn [workers]; apply list_lookup_insert_eq; assumption).
      unfold statement. cbn [w_pc w_source fst snd shared workers at_pc].
      rewrite list_insert_insert_eq.
      apply (exclusive_replace sy _ i _ _ Hw); [discriminate|assumption|].
      intros a n Hn. cbn [in_run w_pc w_source andb Nat.b2n at_pc] in Hn.
      rewrite Nat.add_0_r in Hn. rewrite is_active_set.
      destruct (Hruns a) as [Hle Hmark].
      destruct (String.eqb src a) eqn:Hsa; cbn [Nat.b2n] in Hn.
      * apply String.eqb_eq in Hsa. subst a.
        destruct (decide (src = src)); [|contradiction].
        assert (H0 : active_runs sy src = 0%nat).
        { destruct (active_runs sy src) as [|[|m]]; [reflexivity| |lia].
          specialize (Hmark eq_refl). congruence. }
        rewrite H0 in Hn. subst n. split; [lia|reflexivity].
      * apply String.eqb_neq in Hsa.
        destruct (decide (src = a)); [contradiction|].
        rewrite Nat.add_0_r in Hn. subst n. split; assumption.
  - (* the crawl *)
    rewrite (step_eq sy i _ Hw). unfold statement.
    cbn [w_pc w_source fst snd at_pc].
    apply (exclusive_replace sy _ i _ _ Hw); [discriminate|assumption|].
    intros a n Hn. cbn [in_run w_pc w_source andb at_pc] in Hn.
    apply Nat.add_cancel_r in Hn. subst n. apply Hruns.
  - (* the release *)
    rewrite (step_eq sy i _ Hw). unfold statement.
    cbn [w_pc w_source fst snd at_pc].
    apply (exclusive_replace sy _ i _ _ Hw); [discriminate|assumption|].
    intros a n Hn. cbn [in_run w_pc w_source andb Nat.b2n at_pc] in Hn.
    rewrite Nat.add_0_r in Hn. unfold execute_finally. rewrite is_active_set.
    destruct (Hruns a) as [Hle Hmark].
    destruct (String.eqb src a) eqn:Hsa; cbn [Nat.b2n] in Hn.
    + apply String.eqb_eq in Hsa. subst a.
      destruct (decide (src = src)); [|contradiction].
      split; [lia|]. intros H1. lia.
    + apply String.eqb_neq in Hsa.
      destruct (decide (src = a)); [contradiction|].
      rewrite Nat.add_0_r in Hn. subst n. split; assumption.
  - (* returned: nothing moves *)
    rewrite (step_eq sy i _ Hw). unfold statement.
    cbn [w_pc w_source fst snd at_pc].
    apply (exclusive_replace sy _ i _ _ Hw); [discriminate|assumption|].
    intros a n Hn. cbn [in_run w_pc w_source andb Nat.b2n at_pc] in Hn.
    rewrite !Nat.add_0_r in Hn. subst n. apply Hruns.
Qed.

(** With the check and the marking indivisible, every schedule keeps at
    most one run per source in progress. *)
Lemma atomic_check_excludes sy schedule :
  exclusive sy -> exclusive (run_atomic sy schedule).
Proof.
  unfold CrawlScheduler.run_atomic. revert sy.
  induction schedule as [|i rest IH]; intros sy H; cbn [fold_left]; [assumption|].
  apply IH. now apply exclusive_step_atomic.
Qed.

Lemma no_runs_at_check (ws : list worker) a :
  Forall (fun w => w_pc w = AtCheck) ws ->
  List.filter (fun w => in_run w && String.eqb (w_source w) a) ws = [].
Proof.
  induction 1 as [|w ws Hw _ IH]; cbn; [reflexivity|].
  unfold in_run. rewrite Hw. cbn. exact IH.
Qed.

(** Workers that all stand at the check, whatever is marked, start from
    the invariant; so with an indivisible check-and-mark no schedule gives
    a source two runs. *)
Lemma atomic_check_at_most_one sy schedule a :
  Forall (fun w => w_pc w = AtCheck) (workers sy) ->
  (active_runs (run_atomic sy schedule) a <= 1)%nat.
Proof.
  intros Hfresh. apply (atomic_check_excludes sy schedule). split.
  - eapply Forall_impl; [eassumption|]. cbn. intros w ->. discriminate.
  - intros b. unfold active_runs. rewrite (no_runs_at_check _ b Hfresh). cbn.
    split; [lia|discriminate].
Qed.


(** C8 (the code departs from the specification).  Two workers were handed the
    same source while nothing was marked.  Both run the check of
    [_crawl_job] before either sets the mark; both then set it, and the
    source has two runs in progress. *)
Theorem overlapping_runs :
  active_runs (run_schedule (Scenario.two_workers Scenario.idle_scheduler)
                            [0; 1; 0; 1]%nat) Scenario.sid = 2%nat
  /\ map w_pc (workers (run_schedule (Scenario.two_workers Scenario.idle_scheduler)
                                     [0; 1; 0; 1]%nat))
     = [AtExecute; AtExecute]
  /\ executing
       (shared (run_schedule (Scenario.two_workers Scenario.idle_scheduler)
                             [0; 1; 0; 1; 0; 1; 0; 1]%nat))
     = [Scenario.sid; Scenario.sid].
Proof. vm_compute. repeat split. Qed.
End SchedulerFacts.


(** ** Snippets *)

Section SnippetFacts.
Import Py Mongo.

Lemma lower_length s : String.length (lower s) = String.length s.
Proof. induction s as [|c s IH]; cbn; [reflexivity|]. now rewrite IH. Qed.

Lemma occurs_at_0 sub s : occurs_at sub s 0 <-> String.prefix sub s = true.
Proof. unfold occurs_at. cbn. split; [tauto|]. intros H. split; [lia|assumption]. Qed.

Lemma occurs_at_S sub c s k : occurs_at sub (String c s) (S k) <-> occurs_at sub s k.
Proof. unfold occurs_at. cbn. split; intros [H1 H2]; split; (assumption || lia). Qed.

(** [find_from] returns the lowest index of an occurrence, and [None]
    when there is none. *)
Lemma find_from_Some sub s : forall i j,
  find_from sub s i = Some j ->
  exists k, j = (i + k)%nat /\ occurs_at sub s k
            /\ forall k', (k' < k)%nat -> ~ occurs_at sub s k'.
Proof.
  induction s as [|c s IH]; intros i j; cbn [find_from].
  - destruct (String.prefix sub "") eqn:Hp; [|discriminate].
    intros H; inversion H; subst. exists 0%nat.
    split; [lia|]. split; [now apply occurs_at_0|]. intros k' Hk; lia.
  - destruct (String.prefix sub (String c s)) eqn:Hp.
    + intros H; inversion H; subst. exists 0%nat.
      split; [lia|]. split; [now apply occurs_at_0|]. intros k' Hk; lia.
    + intros H. apply IH in H as (k & -> & Hocc & Hmin). exists (S k).
      split; [lia|]. split; [now apply occurs_at_S|].
      intros [|k'] Hk.
      * rewrite occurs_at_0. congruence.
      * rewrite occurs_at_S. apply Hmin. lia.
Qed.

Lemma find_from_None sub s : forall i,
  find_from sub s i = None -> forall k, ~ occurs_at sub s k.
Proof.
  induction s as [|c s IH]; intros i; cbn [find_from].
  - destruct (String.prefix sub "") eqn:Hp; [discriminate|].
    intros _ k [Hk Hocc]. cbn in Hk. assert (k = 0%nat) by lia. subst.
    change (drop 0 "") with "" in Hocc. congruence.
  - destruct (String.prefix sub (String c s)) eqn:Hp; [discriminate|].
    intros H [|k].
    + rewrite occurs_at_0. congruence.
    + rewrite occurs_at_S. eapply IH; eassumption.
Qed.

(** [find] in the terms of Python: [-1] exactly when [sub] does not occur,
    otherwise the lowest index at which it does. *)
Lemma find_spec s sub :
  (find s sub = (-1)%Z /\ forall k, ~ occurs_at sub s k)
  \/ (exists k, find s sub = Z.of_nat k /\ occurs_at sub s k
                /\ forall k', occurs_at sub s k' -> (k <= k')%nat).
Proof.
  unfold find. destruct (find_from sub s 0) as [j|] eqn:Hf.
  - right. apply find_from_Some in Hf as (k & -> & Hocc & Hmin).
    exists k. split; [reflexivity|]. split; [assumption|].
    intros k' Hk'. destruct (Nat.le_gt_cases k k') as [|Hlt]; [assumption|].
    exfalso. eapply Hmin; eassumption.
  - left. split; [reflexivity|]. eapply find_from_None; eassumption.
Qed.

(** The keyword loop keeps the lowest index at which any keyword
    occurs. *)
Lemma best_position_spec tl : forall terms acc,
  (acc = (-1)%Z \/ (0 <= acc)%Z) ->
  (best_position tl terms acc = (-1)%Z
   /\ acc = (-1)%Z
   /\ forall t k, In t terms -> ~ occurs_at t tl k)
  \/ ((0 <= best_position tl terms acc)%Z
      /\ (best_position tl terms acc = acc
          \/ exists t, In t terms
                       /\ occurs_at t tl (Z.to_nat (best_position tl terms acc)))
      /\ (acc <> (-1)%Z -> (best_position tl terms acc <= acc)%Z)
      /\ forall t k, In t terms -> occurs_at t tl k ->
                     (best_position tl terms acc <= Z.of_nat k)%Z).
Proof.
  induction terms as [|t terms IH]; intros acc Hacc; cbn [best_position].
  - destruct Hacc as [->|Hacc].
    + left. repeat split. intros t k [].
    + right. split; [assumption|]. split; [now left|]. split; [lia|].
      intros t k [].
  - destruct (find_spec tl t) as [[Hf Hno] | (k & Hf & Hocc & Hmin)]; rewrite Hf.
    + (* this keyword does not occur *)
      cbn [Z.eqb negb].
      destruct (IH acc Hacc) as [(Hb & Ha & Hnone) | (Hb & Hwhere & Hle & Hmin)].
      * left. split; [assumption|]. split; [assumption|].
        intros t' k' [<-|Hin]; [apply Hno|now apply Hnone].
      * right. split; [assumption|]. split.
        { destruct Hwhere as [|(t' & Hin & Ho)]; [now left|].
          right. exists t'. split; [now right|assumption]. }
        split; [assumption|].
        intros t' k' [<-|Hin] Ho; [exfalso; eapply Hno; eassumption|eauto].
    + (* this keyword occurs first at [k] *)
      replace (negb (Z.of_nat k =? -1)%Z) with true
        by (symmetry; apply negb_true_iff, Z.eqb_neq; lia).
      set (acc' := if ((acc =? -1)%Z || (Z.of_nat k <? acc)%Z)
                   then Z.of_nat k else acc).
      assert (Hacc' : (0 <= acc')%Z /\ (acc' <= Z.of_nat k)%Z
                      /\ (acc <> (-1)%Z -> (acc' <= acc)%Z)
                      /\ (acc' = Z.of_nat k \/ acc' = acc)).
      { unfold acc'. destruct (acc =? -1)%Z eqn:E1; cbn [orb].
        - apply Z.eqb_eq in E1.
          split; [lia|]. split; [lia|]. split; [lia|now left].
        - apply Z.eqb_neq in E1.
          destruct (Z.of_nat k <? acc)%Z eqn:E2.
          + apply Z.ltb_lt in E2.
            split; [lia|]. split; [lia|]. split; [lia|now left].
          + apply Z.ltb_ge in E2.
            split; [lia|]. split; [lia|]. split; [lia|now right]. }
      destruct Hacc' as (H0 & Hk & Hle' & Hsel).
      destruct (IH acc' (or_intror H0)) as [(Hb & Ha & _) | (Hb & Hwhere & Hle & Hmin')];
        [lia|].
      right. split; [assumption|]. split; [|split].
      * destruct Hwhere as [Heq|(t' & Hin & Ho)].
        { destruct Hsel as [Hs|Hs].
          - right. exists t. split; [now left|].
            rewrite Heq, Hs, Nat2Z.id. assumption.
          - left. congruence. }
        { right. exists t'. split; [now right|assumption]. }
      * intros Hne. specialize (Hle ltac:(lia)). specialize (Hle' Hne). lia.
      * intros t' k' [<-|Hin] Ho.
        { specialize (Hmin _ Ho). specialize (Hle ltac:(lia)). lia. }
        { eauto. }
Qed.

Lemma append_empty_r s : s +:+ "" = s.
Proof.
  induction s as [|c s IH]; [reflexivity|].
  change (String c (s +:+ "") = String c s). now rewrite IH.
Qed.

Lemma substring_length_le s : forall n m,
  (String.length (substring n m s) <= m)%nat.
Proof.
  induction s as [|c s IH]; intros [|n] [|m]; cbn; try lia.
  - specialize (IH 0%nat m). lia.
  - apply IH.
  - apply IH.
Qed.

Lemma substring_0_min s : forall m,
  substring 0 (Nat.min m (String.length s)) s = substring 0 m s.
Proof.
  induction s as [|c s IH]; intros [|m]; cbn; try reflexivity.
  now rewrite IH.
Qed.

(** Slices with bounds inside the string are plain substrings. *)
Lemma slice_inside s i j :
  (0 <= i <= j)%Z -> (j <= Z.of_nat (String.length s))%Z ->
  slice s i j = substring (Z.to_nat i) (Z.to_nat (j - i)) s.
Proof.
  intros Hij Hj. unfold slice, clamp_index.
  replace (i <? 0)%Z with false by (symmetry; apply Z.ltb_ge; lia).
  replace (j <? 0)%Z with false by (symmetry; apply Z.ltb_ge; lia).
  rewrite !Z.min_l by lia. reflexivity.
Qed.

Lemma slice_to_head s m :
  (0 <= m)%Z -> slice_to s m = substring 0 (Z.to_nat m) s.
Proof.
  intros Hm. unfold slice_to, slice, clamp_index. cbn [Z.ltb Z.compare].
  replace (m <? 0)%Z with false by (symmetry; apply Z.ltb_ge; lia).
  rewrite Z.min_l by lia. rewrite Z.sub_0_r. cbn [Z.to_nat].
  rewrite <- (substring_0_min s (Z.to_nat m)). f_equal. lia.
Qed.

End SnippetFacts.



(** * Further properties *)

(** ** Blocking detector *)

Section DetectorMore.
Import Py BlockingDetector.
Variable decode_ignore : bytes -> string.
Variable soup_find : string -> option dom_facts.

Lemma detect_http_block_cases status :
  (status = 403%Z /\ detect_http_block status = Some "HTTP_403_FORBIDDEN")
  \/ (status = 429%Z /\ detect_http_block status = Some "HTTP_429_RATE_LIMIT")
  \/ (status = 503%Z /\ detect_http_block status = Some "HTTP_503_SERVICE_UNAVAILABLE")
  \/ (status <> 403%Z /\ status <> 429%Z /\ status <> 503%Z
      /\ detect_http_block status = None).
Proof.
  unfold detect_http_block.
  destruct (status =? 403)%Z eqn:E1; [apply Z.eqb_eq in E1; auto|].
  destruct (status =? 429)%Z eqn:E2; [apply Z.eqb_eq in E2; auto|].
  destruct (status =? 503)%Z eqn:E3; [apply Z.eqb_eq in E3; auto 6|].
  cbn [existsb BLOCK_STATUS_CODES]. rewrite E1, E2, E3. cbn.
  apply Z.eqb_neq in E1, E2, E3. auto 10.
Qed.

Lemma http_block_truthy status h :
  detect_http_block status = Some h -> truthy_str h = true.
Proof.
  destruct (detect_http_block_cases status)
    as [[_ H]|[[_ H]|[[_ H]|(_ & _ & _ & H)]]]; rewrite H; intros E;
    inversion E; reflexivity.
Qed.

(** X1.  The result of [detect_all] is decided by its three checks: the
    block type is the HTTP block if there is one, else [CAPTCHA] if the
    CAPTCHA check fires, else [IP_BAN] if the IP-ban check fires, else
    nothing; [blocked] is set exactly when one of the three is positive,
    and the flags report the checks one by one. *)
Theorem detect_all_decided (content : bytes) (status : Z) (url : string) :
  block_type (detect_all decode_ignore soup_find content status url)
  = match detect_http_block status with
    | Some h => Some h
    | None =>
        if detect_captcha decode_ignore soup_find content url then Some "CAPTCHA"
        else if detect_ip_ban decode_ignore content status then Some "IP_BAN"
        else None
    end
  /\ blocked (detect_all decode_ignore soup_find content status url)
     = (match detect_http_block status with Some _ => true | None => false end
        || detect_captcha decode_ignore soup_find content url
        || detect_ip_ban decode_ignore content status)
  /\ http_block (detect_all decode_ignore soup_find content status url)
     = detect_http_block status
  /\ captcha_detected (detect_all decode_ignore soup_find content status url)
     = detect_captcha decode_ignore soup_find content url
  /\ ip_ban_detected (detect_all decode_ignore soup_find content status url)
     = detect_ip_ban decode_ignore content status
  /\ status_code (detect_all decode_ignore soup_find content status url) = status.
Proof.
  unfold detect_all.
  destruct (detect_http_block status) as [h|] eqn:Hh.
  - pose proof (http_block_truthy _ _ Hh) as Ht. cbn [truthy_opt_str]. rewrite Ht.
    destruct (detect_captcha decode_ignore soup_find content url),
             (detect_ip_ban decode_ignore content status);
      cbn; rewrite ?Ht; cbn; rewrite ?Ht; auto 10.
  - cbn [truthy_opt_str].
    destruct (detect_captcha decode_ignore soup_find content url),
             (detect_ip_ban decode_ignore content status); cbn; auto 10.
Qed.

(** X2.  [detect_http_block] names a block for the statuses 403, 429 and
    503 and for no other status: in particular 401, 404 and 500 are not
    HTTP blocks. *)
Theorem detect_http_block_exactly (status : Z) :
  detect_http_block status <> None
  <-> (status = 403 \/ status = 429 \/ status = 503)%Z.
Proof.
  destruct (detect_http_block_cases status)
    as [[E H]|[[E H]|[[E H]|(N1 & N2 & N3 & H)]]]; rewrite H; split;
    try (intros _; auto; discriminate); try congruence.
  intros [E|[E|E]]; contradiction.
Qed.
End DetectorMore.

Section RegexMore.
Import Py BlockingDetector.

Lemma append_cons c a b : String c a +:+ b = String c (a +:+ b).
Proof. reflexivity. Qed.

Lemma lower_app a b : lower (a +:+ b) = lower a +:+ lower b.
Proof.
  induction a as [|c a IH]; [reflexivity|].
  rewrite append_cons. cbn [lower]. rewrite append_cons. now rewrite IH.
Qed.

Lemma prefix_app s b : String.prefix s (s +:+ b) = true.
Proof.
  induction s as [|c s IH]; [now destruct b|].
  rewrite append_cons. cbn [String.prefix].
  destruct (ascii_dec c c); [assumption|contradiction].
Qed.

Lemma contains_prefix s t : String.prefix s t = true -> contains s t = true.
Proof. intros H. destruct t; cbn [contains]; rewrite H; reflexivity. Qed.

Lemma contains_app_l s a t : contains s t = true -> contains s (a +:+ t) = true.
Proof.
  intros H. induction a as [|c a IH]; [assumption|].
  rewrite append_cons. cbn [contains]. rewrite IH. apply orb_true_r.
Qed.



Lemma contains_middle s a b : contains s (a +:+ s +:+ b) = true.
Proof. apply contains_app_l, contains_prefix, prefix_app. Qed.

(** A literal alternative matches wherever the word stands and in
    whatever case it is written. *)
Lemma search_literal ps w a b :
  In (Lit (lower w)) ps -> search ps (a +:+ w +:+ b) = true.
Proof.
  intros Hin. unfold search. apply existsb_exists.
  exists (Lit (lower w)). split; [assumption|].
  unfold search1. rewrite !lower_app. apply contains_middle.
Qed.

Variable decode_ignore : bytes -> string.
Variable soup_find : string -> option dom_facts.

(** X3.  A body whose decoded text contains one of the literal CAPTCHA
    words ([captcha], [cloudflare], [robot], ...) anywhere and in any
    letter case is classified as blocked with the CAPTCHA flag, whatever
    the status; without an HTTP block the block type is [CAPTCHA]. *)
Theorem captcha_word_blocks (content : bytes) (status : Z) (url a w b : string) :
  decode_ignore content = a +:+ w +:+ b ->
  In (Lit (lower w)) CAPTCHA_PATTERNS ->
  detect_captcha decode_ignore soup_find content url = true
  /\ blocked (detect_all decode_ignore soup_find content status url) = true
  /\ (detect_http_block status = None ->
      block_type (detect_all decode_ignore soup_find content status url)
      = Some "CAPTCHA").
Proof.
  intros Hdec Hin.
  assert (Hc : detect_captcha decode_ignore soup_find content url = true).
  { unfold detect_captcha, captcha_regex. rewrite Hdec.
    now rewrite (search_literal _ _ _ _ Hin). }
  split; [assumption|]. unfold detect_all. rewrite Hc.
  destruct (truthy_opt_str (detect_http_block status)) eqn:Ht;
    destruct (detect_ip_ban decode_ignore content status); cbn;
    (split; [reflexivity|]); intros Hn; rewrite Hn in *; cbn in *;
    try discriminate; reflexivity.
Qed.
End RegexMore.

(** Witness of [captcha_word_blocks]: a page that mentions Cloudflare. *)
Lemma captcha_word_blocks_witness :
  BlockingDetector.blocked
    (BlockingDetector.detect_all Scenario.decode Scenario.no_dom
       "<p>Protected by CloudFlare</p>" 200 "http://example.com/") = true.
Proof.
  exact (proj1 (proj2 (captcha_word_blocks Scenario.decode Scenario.no_dom
           "<p>Protected by CloudFlare</p>" 200 "http://example.com/"
           "<p>Protected by " "CloudFlare" "</p>" eq_refl
           ltac:(vm_compute; tauto)))).
Defined.

(** ** Fetcher: robots gate and retries *)

Section FetcherMore.
Import Py BaseCrawler.
Variable can_fetch : string -> bool.
Variable server : string -> nat -> attempt.
Variable max_retries : nat.





Lemma session_get_exhausted srv : forall r n,
  (forall j, (j <= r)%nat -> Robots.retryable (srv (n + j)%nat) = true) ->
  (exists m, fst (session_get srv r n) = Raise (RequestException m))
  /\ snd (session_get srv r n) = (n + r + 1)%nat.
Proof.
  induction r as [|r IH]; intros n Hretry; cbn [session_get].
  - pose proof (Hretry 0%nat ltac:(lia)) as H0. rewrite Nat.add_0_r in H0.
    destruct (srv n) as [|st c]; cbn [Robots.retryable] in H0;
      [|rewrite H0]; cbn [fst snd]; (split; [eauto|lia]).
  - pose proof (Hretry 0%nat ltac:(lia)) as H0. rewrite Nat.add_0_r in H0.
    assert (Hnext : (exists m, fst (session_get srv r (S n)) = Raise (RequestException m))
                    /\ snd (session_get srv r (S n)) = (S n + r + 1)%nat).
    { apply IH. intros j Hj. rewrite Nat.add_succ_comm. apply Hretry. lia. }
    destruct Hnext as [Hm Hn].
    destruct (srv n) as [|st c]; cbn [Robots.retryable] in H0;
      [|rewrite H0]; (split; [assumption|lia]).
Qed.


(** X7.  Retries exhaust: when every one of the [max_retries + 1] attempts
    ends in a connection error or a status of the retry list, [fetch]
    gives up after exactly [max_retries + 1] attempts and returns [None];
    it does not raise. *)
Theorem fetch_gives_up (url : string) (respect_robots : bool) :
  respect_robots && negb (can_fetch url) = false ->
  (forall j, (j <= max_retries)%nat -> Robots.retryable (server url j) = true) ->
  attempts_made server max_retries url = (max_retries + 1)%nat
  /\ fetch can_fetch server max_retries url respect_robots = Ok None.
Proof.
  intros Hrobots Hretry.
  destruct (session_get_exhausted (server url) max_retries 0 Hretry) as [[m Hm] Hn].
  split; [exact Hn|].
  unfold fetch. now rewrite Hrobots, Hm.
Qed.
End FetcherMore.


(** Witness of [fetch_gives_up]: a server that always answers 503. *)
Lemma fetch_gives_up_witness :
  BaseCrawler.attempts_made (fun _ => Examples.down_server) 3 "http://example.com/" = 4%nat
  /\ BaseCrawler.fetch Scenario.robots_allow (fun _ => Examples.down_server) 3
       "http://example.com/" true = Py.Ok None.
Proof.
  apply (fetch_gives_up Scenario.robots_allow (fun _ => Examples.down_server) 3
           "http://example.com/" true).
  - reflexivity.
  - intros j _. reflexivity.
Defined.

(** ** Fetcher: the robots.txt cache *)

Section RobotsMore.
Variable robots : Type.
Variable domain_of : string -> string.
Variable allows : robots -> string -> string -> bool.
Variable user_agent : string.

(** X8.  After [can_fetch] has been called for a URL, every later call for
    a URL of the same domain leaves the cache as it is and gives an answer
    that does not depend on the network any more: robots.txt is read at
    most once per domain. *)
Theorem robots_read_once (read_robots read_later : string -> option robots)
        (cache : gmap string (option robots)) (url url' : string) :
  domain_of url' = domain_of url ->
  fst (Robots.can_fetch robots domain_of read_later allows user_agent
         (fst (Robots.can_fetch robots domain_of read_robots allows user_agent cache url))
         url')
  = fst (Robots.can_fetch robots domain_of read_robots allows user_agent cache url)
  /\ Robots.can_fetch robots domain_of read_later allows user_agent
       (fst (Robots.can_fetch robots domain_of read_robots allows user_agent cache url))
       url'
     = Robots.can_fetch robots domain_of read_robots allows user_agent
         (fst (Robots.can_fetch robots domain_of read_robots allows user_agent cache url))
         url'.
Proof.
  intros Hdom.
  set (c1 := fst (Robots.can_fetch robots domain_of read_robots allows user_agent cache url)).
  assert (Hc1 : exists o, c1 !! domain_of url = Some o).
  { unfold c1, Robots.can_fetch.
    destruct (cache !! domain_of url) as [o|] eqn:Hc.
    - rewrite Hc. destruct o as [rp|]; cbn; eauto.
    - rewrite lookup_insert_eq. destruct (read_robots (domain_of url)); cbn;
        rewrite lookup_insert_eq; eauto. }
  destruct Hc1 as [o Ho].
  unfold Robots.can_fetch at 1 2 3. rewrite Hdom, Ho. cbn.
  rewrite Ho. destruct o; auto.
Qed.

End RobotsMore.

(** Witness of [robots_read_once]. *)
Lemma robots_read_once_witness :
  Robots.can_fetch (list string) Examples.robots_domain Examples.robots_unreadable
    Examples.robots_allows "bot"
    (fst (Robots.can_fetch (list string) Examples.robots_domain Examples.robots_private
            Examples.robots_allows "bot" ∅ "http://example.com/private/a"))
    "http://example.com/private/b"
  = Robots.can_fetch (list string) Examples.robots_domain Examples.robots_private
      Examples.robots_allows "bot"
      (fst (Robots.can_fetch (list string) Examples.robots_domain Examples.robots_private
              Examples.robots_allows "bot" ∅ "http://example.com/private/a"))
      "http://example.com/private/b".
Proof.
  exact (proj2 (robots_read_once (list string) Examples.robots_domain
                  Examples.robots_allows "bot" Examples.robots_private
                  Examples.robots_unreadable ∅ "http://example.com/private/a"
                  "http://example.com/private/b" eq_refl)).
Defined.


(** ** Store: sources and documents *)

Section StoreMore.
Import Py Mongo Index.

Lemma find_update_one_frame {A} (p q : A -> bool) (f : A -> A) (l : list A) :
  (forall y, q (f y) = q y) ->
  (forall y, p y = true -> q y = false) ->
  List.find q (update_one p f l) = List.find q l.
Proof.
  intros Hf Hpq. induction l as [|y l IH]; cbn; [reflexivity|].
  destruct (p y) eqn:Hp.
  - cbn. rewrite Hf, (Hpq _ Hp). reflexivity.
  - cbn. now rewrite IH.
Qed.

Lemma delete_one_shorter {A} (p : A -> bool) (l : list A) :
  (List.length (delete_one p l) <? List.length l)%nat = true
  <-> exists x, In x l /\ p x = true.
Proof.
  induction l as [|y l IH]; cbn [delete_one List.length].
  - split; [discriminate|intros (x & [] & _)].
  - destruct (p y) eqn:Hp.
    + split; [eauto using in_eq|]. intros _. apply Nat.ltb_lt. lia.
    + cbn [List.length]. split.
      * intros H. apply Nat.ltb_lt in H.
        assert (H' : (List.length (delete_one p l) <? List.length l)%nat = true)
          by (apply Nat.ltb_lt; lia).
        apply IH in H' as (x & Hx & Hpx). eauto using in_cons.
      * intros (x & [->|Hx] & Hpx); [congruence|].
        assert (H' : (List.length (delete_one p l) <? List.length l)%nat = true)
          by (apply IH; eauto).
        apply Nat.ltb_lt in H'. apply Nat.ltb_lt. lia.
Qed.

Lemma find_is_Some {A} (p : A -> bool) (l : list A) :
  (exists x, List.find p l = Some x) <-> exists x, In x l /\ p x = true.
Proof.
  split.
  - intros [x H]. apply find_some in H. eauto.
  - intros (x & Hx & Hp). destruct (List.find p l) eqn:Hf; [eauto|].
    pose proof (find_none _ _ Hf x Hx). congruence.
Qed.

Lemma same_key_In doc docs :
  existsb (same_key doc) docs = true <-> In (doc_key doc) (map doc_key docs).
Proof.
  rewrite existsb_exists, in_map_iff. unfold same_key, doc_key. split.
  - intros (x & Hx & Hk). apply andb_true_iff in Hk as [H1 H2].
    apply String.eqb_eq in H1, H2. exists x. split; [congruence|assumption].
  - intros (x & Hk & Hx). inversion Hk as [[H1 H2]]. exists x.
    split; [assumption|]. now rewrite !String.eqb_refl.
Qed.

Lemma ObjectId_length s o : ObjectId s = Some o -> String.length s = 24%nat.
Proof.
  unfold ObjectId. destruct (String.length s =? 24)%nat eqn:E; [|discriminate].
  intros _. now apply Nat.eqb_eq.
Qed.

(** X10.  [update_source] and [get_source] fit together: an update of an
    existing source is what the next [get_source] of that id shows;
    sources with another id are not affected; an update for an id that
    names no source changes nothing; and no update touches projects,
    documents or crawl stats. *)
Theorem update_then_get (d : db) (source_id : string) (u : updates) :
  (forall s, get_source d source_id = Some s ->
             get_source (update_source d source_id u) source_id
             = Some (apply_updates u s))
  /\ (forall other, ObjectId other <> ObjectId source_id ->
                    get_source (update_source d source_id u) other
                    = get_source d other)
  /\ (get_source d source_id = None -> update_source d source_id u = d)
  /\ projects (update_source d source_id u) = projects d
  /\ documents (update_source d source_id u) = documents d
  /\ crawl_stats (update_source d source_id u) = crawl_stats d.
Proof.
  split; [intros s; apply get_update_source|].
  split; [|split].
  - intros other Hne. unfold get_source, update_source.
    destruct (ObjectId source_id) as [obj|] eqn:Hs; [|reflexivity].
    destruct (ObjectId other) as [obj'|] eqn:Ho; [|reflexivity].
    cbn [sources]. apply find_update_one_frame; [reflexivity|].
    intros y Hy. apply String.eqb_eq in Hy. apply String.eqb_neq. congruence.
  - unfold get_source, update_source.
    destruct (ObjectId source_id) as [obj|]; [|reflexivity].
    intros Hnone. rewrite (find_update_one_None _ _ _ Hnone). now destruct d.
  - unfold update_source. destruct (ObjectId source_id); auto.
Qed.

(** X11.  The unique index holds after every [create_document]: a
    collection without two documents of the same [(url, source_id)] stays
    so; the call returns [None] exactly when the key was already there,
    in which case the database is unchanged, and otherwise adds exactly
    one document; either way a document with that key is in the
    collection afterwards. *)
Theorem create_document_unique (d d' : db) (doc : Document) (o : option string) :
  unique_documents d ->
  create_document d doc = Ok (d', o) ->
  unique_documents d'
  /\ (o = None <-> In (doc_key doc) (map doc_key (documents d)))
  /\ (o = None -> d' = d)
  /\ (o <> None -> List.length (documents d') = S (List.length (documents d)))
  /\ In (doc_key doc) (map doc_key (documents d')).
Proof.
  intros Hu Hc.
  destruct (existsb (same_key doc) (documents d)) eqn:Hk.
  - rewrite (create_document_duplicate _ _ Hk) in Hc. inversion Hc; subst.
    apply same_key_In in Hk. repeat split; auto; congruence.
  - unfold create_document, insert_one in Hc. rewrite Hk in Hc.
    inversion Hc; subst; clear Hc.
    assert (Hnot : ~ In (doc_key doc) (map doc_key (documents d))).
    { intros Hin. apply same_key_In in Hin. congruence. }
    split; [|split; [|split; [|split]]].
    + unfold unique_documents. cbn [documents]. rewrite map_app. cbn [map].
      apply List.NoDup_app.
      * assumption.
      * constructor; [intros []|constructor].
      * intros k Hin [<-|[]]. apply Hnot. exact Hin.
    + split; [discriminate|contradiction].
    + discriminate.
    + intros _. cbn [documents]. rewrite length_app. cbn. lia.
    + cbn [documents]. rewrite map_app. apply in_or_app. right. now left.
Qed.

(** X12.  Inserting the same document twice is a no-op the second time:
    whatever the first [create_document] did, the second returns [None]
    and leaves the database as the first left it. *)
Theorem create_document_twice (d d1 : db) (doc : Document) (o : option string) :
  create_document d doc = Ok (d1, o) ->
  create_document d1 doc = Ok (d1, None).
Proof.
  intros Hc. apply create_document_duplicate.
  destruct (existsb (same_key doc) (documents d)) eqn:Hk.
  - rewrite (create_document_duplicate _ _ Hk) in Hc. now inversion Hc; subst.
  - unfold create_document, insert_one in Hc. rewrite Hk in Hc.
    inversion Hc; subst. cbn [documents]. rewrite existsb_app. cbn.
    unfold same_key at 2. cbn. rewrite !String.eqb_refl. cbn.
    apply orb_true_r.
Qed.

(** X13.  The booleans returned by the two deletions tell whether the
    entity existed: [delete_source] returns [True] exactly when
    [get_source] finds the id, [delete_project] exactly when a project
    with that id is in the collection. *)
Theorem delete_reports_existence (d : db) (oid : string) :
  (snd (delete_source d oid) = true <-> exists s, get_source d oid = Some s)
  /\ (snd (delete_project d oid) = true
      <-> exists obj p, ObjectId oid = Some obj /\ In p (projects d)
                        /\ project_oid p = obj).
Proof.
  unfold delete_source, delete_project, get_source.
  destruct (ObjectId oid) as [obj|]; cbn [snd].
  - split.
    + rewrite delete_one_shorter. symmetry. apply find_is_Some.
    + rewrite delete_one_shorter. split.
      * intros (p & Hp & He). apply String.eqb_eq in He. eauto.
      * intros (obj' & p & Ho & Hp & He). inversion Ho; subst.
        exists p. split; [assumption|apply String.eqb_refl].
  - split; split; try discriminate.
    + intros [s H]; discriminate.
    + intros (obj & p & H & _); discriminate.
Qed.

(** X14.  An id that is not 24 characters long is malformed for every
    operation: [get_source] finds nothing, [update_source] changes
    nothing, and both deletions return [False] without deleting
    anything. *)
Theorem malformed_id_is_inert (d : db) (oid : string) (u : updates) :
  String.length oid <> 24%nat ->
  get_source d oid = None
  /\ update_source d oid u = d
  /\ delete_source d oid = (d, false)
  /\ delete_project d oid = (d, false).
Proof.
  intros Hlen.
  assert (Hnone : ObjectId oid = None).
  { destruct (ObjectId oid) eqn:E; [|reflexivity].
    apply ObjectId_length in E. contradiction. }
  unfold get_source, update_source, delete_source, delete_project.
  rewrite Hnone. auto.
Qed.
End StoreMore.

(** Witness of [create_document_unique]: the blog's document inserted
    again. *)
Lemma create_document_unique_witness :
  Index.unique_documents (CrawlManager.run_db Scenario.first_run)
  /\ In (Index.doc_key Scenario.blog_document)
        (map Index.doc_key (Mongo.documents (CrawlManager.run_db Scenario.first_run))).
Proof.
  assert (Hu : Index.unique_documents (CrawlManager.run_db Scenario.first_run)).
  { vm_compute. repeat constructor. intros []. }
  split; [exact Hu|].
  exact (proj2 (proj2 (proj2 (proj2
           (create_document_unique (CrawlManager.run_db Scenario.first_run)
              (CrawlManager.run_db Scenario.first_run) Scenario.blog_document None
              Hu ltac:(reflexivity)))))).
Defined.

(** Witness of [create_document_twice]. *)
Lemma create_document_twice_witness :
  Mongo.create_document (CrawlManager.run_db Scenario.first_run) Scenario.blog_document
  = Py.Ok (CrawlManager.run_db Scenario.first_run, None).
Proof.
  exact (create_document_twice (CrawlManager.run_db Scenario.first_run)
           (CrawlManager.run_db Scenario.first_run) Scenario.blog_document None
           ltac:(reflexivity)).
Defined.

(** Witness of [malformed_id_is_inert]. *)
Lemma malformed_id_is_inert_witness :
  Mongo.delete_source Scenario.db_owned "blog" = (Scenario.db_owned, false).
Proof.
  exact (proj1 (proj2 (proj2 (malformed_id_is_inert Scenario.db_owned "blog"
           {| Mongo.set_status := None; Mongo.set_last_error := None;
              Mongo.set_total_documents := None |}
           ltac:(cbn; lia))))).
Defined.

(** ** Store: snippets *)

Section SnippetMore.
Import Py Mongo.

Lemma length_append a b :
  String.length (a +:+ b) = (String.length a + String.length b)%nat.
Proof.
  induction a as [|c a IH]; [reflexivity|].
  rewrite append_cons. cbn [String.length]. now rewrite IH.
Qed.








(** The two shapes of a snippet of a non-empty text. *)
Lemma generate_snippet_cases text keywords max_length :
  text <> "" -> (0 <= max_length)%Z ->
  ((forall t k, In t (split (lower keywords)) -> ~ occurs_at t (lower text) k)
   /\ _generate_snippet text keywords max_length
      = substring 0 (Z.to_nat max_length) text
        +:+ (if (max_length <? Z.of_nat (String.length text))%Z then "..." else ""))
  \/ (exists (p : nat) (t pre post : string),
         In t (split (lower keywords))
         /\ occurs_at t (lower text) p
         /\ (forall t' k, In t' (split (lower keywords)) ->
                          occurs_at t' (lower text) k -> (p <= k)%nat)
         /\ (String.length pre <= 3)%nat /\ (String.length post <= 3)%nat
         /\ _generate_snippet text keywords max_length
            = (pre +:+ substring
                         (Z.to_nat (Z.max 0 (Z.of_nat p - max_length / 2)))
                         (Z.to_nat (Z.min (Z.of_nat (String.length text))
                                          (Z.of_nat p + max_length / 2)
                                    - Z.max 0 (Z.of_nat p - max_length / 2)))
                         text)
              +:+ post).
Proof.
  intros Htext Hmax.
  assert (Htruthy : truthy_str text = true)
    by (destruct text; [contradiction|reflexivity]).
  assert (Hhalf : (0 <= max_length / 2)%Z) by (apply Z.div_pos; lia).
  unfold _generate_snippet. rewrite Htruthy. cbn [negb].
  destruct (best_position_spec (lower text) (split (lower keywords)) (-1)
              (or_introl eq_refl)) as [(Hb & _ & Hnone) | (Hb & Hwhere & _ & Hmin)].
  - left. split; [exact Hnone|]. rewrite Hb. cbn [Z.eqb]. now rewrite slice_to_head.
  - right. destruct Hwhere as [Heq|(t & Hin & Ho)]; [lia|].
    set (b := best_position (lower text) (split (lower keywords)) (-1)) in *.
    exists (Z.to_nat b), t.
    assert (Hp : (b <= Z.of_nat (String.length text))%Z).
    { destruct Ho as [Hle _]. rewrite lower_length in Hle. lia. }
    replace (b =? -1)%Z with false by (symmetry; apply Z.eqb_neq; lia).
    rewrite slice_inside by lia. rewrite Z2Nat.id by lia.
    exists (if (0 <? Z.max 0 (b - max_length / 2))%Z then "..." else ""),
           (if (Z.min (Z.of_nat (String.length text)) (b + max_length / 2)
                <? Z.of_nat (String.length text))%Z then "..." else "").
    split; [assumption|]. split; [assumption|]. split.
    { intros t' k Hin' Ho'. specialize (Hmin _ _ Hin' Ho'). lia. }
    split; [destruct (0 <? _)%Z; cbn; lia|].
    split; [destruct (_ <? _)%Z; cbn; lia|].
    destruct (0 <? Z.max 0 (b - max_length / 2))%Z;
      destruct (Z.min (Z.of_nat (String.length text)) (b + max_length / 2)
                <? Z.of_nat (String.length text))%Z;
      rewrite ?append_empty_r; reflexivity.
Qed.

(** X15.  A snippet is never longer than [max_length + 6] characters: the
    window or head of at most [max_length] characters and at most two
    ellipses. *)
Theorem snippet_length_bound (text keywords : string) (max_length : Z) :
  (0 <= max_length)%Z ->
  (Z.of_nat (String.length (_generate_snippet text keywords max_length))
   <= max_length + 6)%Z.
Proof.
  intros Hmax.
  destruct text as [|c text0] eqn:Htext; [cbn; lia|]. rewrite <- Htext.
  assert (Hne : text <> "") by (subst; discriminate).
  assert (Hdouble : (2 * (max_length / 2) <= max_length)%Z)
    by (apply Z.mul_div_le; lia).
  destruct (generate_snippet_cases text keywords max_length Hne Hmax)
    as [[_ ->] | (p & t & pre & post & _ & _ & _ & Hpre & Hpost & ->)].
  - rewrite length_append.
    pose proof (substring_length_le text 0 (Z.to_nat max_length)).
    destruct (max_length <? _)%Z; cbn [String.length]; lia.
  - rewrite !length_append.
    match goal with
    | |- context [substring ?n ?m text] =>
        pose proof (substring_length_le text n m)
    end.
    lia.
Qed.

End SnippetMore.


(** Witness of [snippet_length_bound]. *)
Lemma snippet_length_bound_witness :
  (Z.of_nat (String.length
               (Mongo._generate_snippet "The quick brown fox jumps over the lazy dog"
                  "FOX lazy" 10)) <= 10 + 6)%Z.
Proof.
  apply (snippet_length_bound "The quick brown fox jumps over the lazy dog"
           "FOX lazy" 10). lia.
Defined.

(** ** Crawl manager: store phase and bookkeeping *)

Section ManagerMore.
Import Py Mongo CrawlManager Index.
Variable decode_ignore : bytes -> string.
Variable soup_find : string -> option BlockingDetector.dom_facts.
Variable fetch : list string -> string -> result pyobj.
Variable parse : ContentType -> parse_input -> string -> result Parsers.ParserResult.

Abbreviation crawl_source' := (crawl_source decode_ignore soup_find fetch parse).

Lemma insert_keeps_unique d doc d' o :
  unique_documents d -> create_document d doc = Ok (d', o) ->
  unique_documents d' /\ projects d' = projects d /\ crawl_stats d' = crawl_stats d.
Proof.
  intros Hu Hc.
  destruct (existsb (same_key doc) (documents d)) eqn:Hk.
  - rewrite (create_document_duplicate _ _ Hk) in Hc. inversion Hc; subst. auto.
  - unfold create_document, insert_one in Hc. rewrite Hk in Hc.
    inversion Hc; subst; clear Hc. split; [|auto].
    unfold unique_documents. cbn [documents]. rewrite map_app. cbn [map].
    apply List.NoDup_app.
    + assumption.
    + constructor; [intros []|constructor].
    + intros key Hin [<-|[]].
      change (In (doc_key doc) (map doc_key (documents d))) in Hin.
      apply same_key_In in Hin. congruence.
Qed.

Lemma create_document_frame d doc d' o :
  create_document d doc = Ok (d', o) ->
  projects d' = projects d /\ crawl_stats d' = crawl_stats d.
Proof.
  intros Hc. destruct (existsb (same_key doc) (documents d)) eqn:Hk.
  - rewrite (create_document_duplicate _ _ Hk) in Hc. inversion Hc; subst. auto.
  - unfold create_document, insert_one in Hc. rewrite Hk in Hc.
    inversion Hc; subst. auto.
Qed.

(** What [_store_document] does to one result. *)
Lemma store_document_cases d source r :
  ((Parsers.word_count r < 0)%Z /\ exists e, _store_document d source r = Raise e)
  \/ ((0 <= Parsers.word_count r)%Z
      /\ exists d' doc o, _store_document d source r = Ok d'
                          /\ create_document d doc = Ok (d', o)).
Proof.
  unfold _store_document.
  destruct (Parsers.word_count r <? 0)%Z eqn:Hwc.
  - left. apply Z.ltb_lt in Hwc. eauto.
  - right. apply Z.ltb_ge in Hwc. split; [assumption|].
    match goal with |- context [create_document d ?doc] =>
      destruct (create_document_total d doc) as (d' & o & Hc); exists d', doc, o
    end.
    now rewrite Hc.
Qed.

Lemma store_results_frame source rs : forall d stats k d' stats' k',
  store_results source rs d stats k = (d', stats', k') ->
  projects d' = projects d /\ crawl_stats d' = crawl_stats d
  /\ (unique_documents d -> unique_documents d').
Proof.
  induction rs as [|r rest IH]; intros d stats k d' stats' k' H; cbn in H.
  - inversion H; subst. auto.
  - destruct (max_hits (config source) <=? pages_crawled stats)%nat;
      [inversion H; subst; auto|].
    destruct (store_document_cases d source r)
      as [[_ [e He]] | [_ (d1 & doc & o & Hs & Hc)]].
    + rewrite He in H. eapply IH; eassumption.
    + rewrite Hs in H. apply IH in H as (Hp & Hc' & Hu).
      destruct (create_document_frame _ _ _ _ Hc) as [Hp1 Hc1].
      split; [congruence|]. split; [congruence|].
      intros Hud. apply Hu. eapply insert_keeps_unique; eassumption.
Qed.

Lemma crawl_traditional_frame d source stats :
  projects (ls_db (_crawl_traditional decode_ignore soup_find fetch parse d source stats))
  = projects d
  /\ crawl_stats (ls_db (_crawl_traditional decode_ignore soup_find fetch parse
                           d source stats))
     = crawl_stats d.
Proof.
  unfold _crawl_traditional.
  apply (crawl_loop_invariant decode_ignore soup_find fetch parse
           (fun st => projects (ls_db st) = projects d
                      /\ crawl_stats (ls_db st) = crawl_stats d)).
  - intros st st' b [Hp Hc] _ Hb.
    apply loop_body_spec in Hb as (_ & _ & _ & Hdb & _).
    destruct Hdb as [-> | [u ->]]; [auto|].
    unfold update_source. destruct (ObjectId (id source)); auto.
  - cbn. auto.
Qed.

(** The run of [crawl_source] through crawl phase, store loop and final
    update, with what each phase leaves alone. *)
Lemma crawl_source_phases d source_id source :
  get_source d source_id = Some source ->
  rate_limit_per_minute (config source) <> 0%nat ->
  exists d2 rs stats1 log d3 stats2 stored,
    crawl_source' d source_id
    = {| run_db := save_crawl_stats
                     (update_source d3 source_id
                        {| set_status := Some COMPLETED;
                           set_last_error := Some None;
                           set_total_documents :=
                             Some (total_documents source + stored) |})
                     stats2;
         outcome := Ok stats2; run_fetched := log; run_results := rs;
         documents_stored := stored |}
    /\ store_results source rs d2 stats1 0 = (d3, stats2, stored)
    /\ pages_crawled stats1 = 0%nat
    /\ documents d2 = documents d
    /\ projects d2 = projects d
    /\ crawl_stats d2 = crawl_stats d.
Proof.
  intros Hs Hrate. unfold crawl_source. rewrite Hs.
  destruct (rate_limit_per_minute (config source) =? 0)%nat eqn:Hr;
    [apply Nat.eqb_eq in Hr; contradiction|].
  set (d1 := update_source d source_id _).
  assert (Hd1 : documents d1 = documents d /\ projects d1 = projects d
                /\ crawl_stats d1 = crawl_stats d).
  { unfold d1, update_source. destruct (ObjectId source_id); auto. }
  destruct Hd1 as (Hdoc1 & Hp1 & Hc1).
  destruct (is_social (content_type source)).
  - destruct (_crawl_social_media fetch parse source (new_stats source_id))
      as [[rs st] log] eqn:Hc.
    pose proof (crawl_social_results fetch parse source (new_stats source_id))
      as [_ Hpc].
    rewrite Hc in Hpc. cbn in Hpc.
    destruct (store_results source rs d1 st 0) as [[d3 stats2] stored] eqn:Hst.
    exists d1, rs, st, log, d3, stats2, stored. auto 10.
  - pose proof (crawl_traditional_results decode_ignore soup_find fetch parse
                  d1 source (new_stats source_id)) as [_ Hpc].
    pose proof (crawl_traditional_frame d1 source (new_stats source_id)) as [Hp Hc].
    destruct (crawl_traditional_db decode_ignore soup_find fetch parse d1 source
                (new_stats source_id) source_id (apply_updates _ source)
                (get_update_source _ _ _ _ Hs)) as [_ Hdocs].
    fold d1 in Hdocs.
    set (lst := _crawl_traditional decode_ignore soup_find fetch parse
                  d1 source (new_stats source_id)) in *.
    destruct (store_results source (results lst) (ls_db lst) (ls_stats lst) 0)
      as [[d3 stats2] stored] eqn:Hst.
    exists (ls_db lst), (results lst), (ls_stats lst), (fetched lst), d3, stats2, stored.
    repeat split; try assumption; congruence.
Qed.

(** X17.  A run over an existing source with a non-zero rate returns its
    stats, appends exactly that record to the crawl-stats collection,
    leaves the projects alone, and raises the source's [total_documents]
    by exactly the returned [pages_crawled], which is also the number
    counted as stored. *)
Theorem crawl_source_accounts (d : db) (source_id : string) (source : Source) :
  get_source d source_id = Some source ->
  rate_limit_per_minute (config source) <> 0%nat ->
  exists st,
    outcome (crawl_source' d source_id) = Ok st
    /\ crawl_stats (run_db (crawl_source' d source_id)) = crawl_stats d ++ [st]
    /\ projects (run_db (crawl_source' d source_id)) = projects d
    /\ documents_stored (crawl_source' d source_id) = pages_crawled st
    /\ option_map total_documents (get_source (run_db (crawl_source' d source_id)) source_id)
       = Some (total_documents source + pages_crawled st)%nat.
Proof.
  intros Hs Hrate.
  destruct (crawl_source_ends_completed decode_ignore soup_find fetch parse
              d source_id source Hs Hrate) as (s' & Hget & _ & _ & Htotal).
  destruct (crawl_source_phases d source_id source Hs Hrate)
    as (d2 & rs & stats1 & log & d3 & stats2 & stored & Hrun & Hst & Hpc & _ & Hp & Hc).
  rewrite Hget. cbn [option_map]. rewrite Htotal. rewrite Hrun.
  cbn [outcome run_db documents_stored].
  pose proof (store_results_frame _ _ _ _ _ _ _ _ Hst) as (Hp3 & Hc3 & _).
  apply store_results_spec in Hst as (_ & _ & Hk & _); [|lia].
  assert (Hstored : stored = pages_crawled stats2) by lia.
  exists stats2. split; [reflexivity|].
  split; [|split; [|split]].
  - cbn [save_crawl_stats crawl_stats]. f_equal.
    unfold update_source. destruct (ObjectId source_id); cbn; congruence.
  - cbn [save_crawl_stats projects].
    unfold update_source. destruct (ObjectId source_id); cbn; congruence.
  - exact Hstored.
  - now rewrite Hstored.
Qed.

(** X18.  [crawl_source] keeps the unique index: if no two documents share
    [(url, source_id)] before a run, none do after it, whatever the
    fetcher returns and the parser produces, and whether or not the source
    exists. *)
Theorem crawl_source_keeps_unique (d : db) (source_id : string) :
  unique_documents d -> unique_documents (run_db (crawl_source' d source_id)).
Proof.
  intros Hu.
  destruct (get_source d source_id) as [source|] eqn:Hs.
  - destruct (Nat.eq_dec (rate_limit_per_minute (config source)) 0) as [Hz|Hnz].
    + unfold crawl_source. rewrite Hs. apply Nat.eqb_eq in Hz. rewrite Hz.
      cbn [run_db]. unfold unique_documents.
      now rewrite !documents_update_source.
    + destruct (crawl_source_phases d source_id source Hs Hnz)
        as (d2 & rs & stats1 & log & d3 & stats2 & stored & -> & Hst & _ & Hd & _).
      apply store_results_frame in Hst as (_ & _ & Hkeep).
      cbn [run_db]. unfold unique_documents.
      cbn [save_crawl_stats documents]. rewrite documents_update_source.
      apply Hkeep. unfold unique_documents. now rewrite Hd.
  - unfold crawl_source. rewrite Hs. exact Hu.
Qed.

(** X19.  The store loop accounts for every result it is given: while
    [max_hits] is not reached, a result with a negative [word_count] is
    rejected by the document model, counted in [pages_failed] with one
    error message, and does not stop the loop; every other result is
    counted in [pages_crawled] and [documents_stored]; nothing is
    skipped. *)
Theorem store_results_accounting (source : Source) (rs : list Parsers.ParserResult) :
  forall (d : db) (stats : CrawlStats) (k : nat) d' stats' k',
  store_results source rs d stats k = (d', stats', k') ->
  (pages_crawled stats + List.length rs <= max_hits (config source))%nat ->
  pages_failed stats'
  = (pages_failed stats
     + List.length (List.filter (fun r => (Parsers.word_count r <? 0)%Z) rs))%nat
  /\ pages_crawled stats'
     = (pages_crawled stats
        + List.length (List.filter (fun r => negb (Parsers.word_count r <? 0)%Z) rs))%nat
  /\ k' = (k + List.length (List.filter (fun r => negb (Parsers.word_count r <? 0)%Z) rs))%nat
  /\ List.length (errors stats')
     = (List.length (errors stats)
        + List.length (List.filter (fun r => (Parsers.word_count r <? 0)%Z) rs))%nat.
Proof.
  induction rs as [|r rest IH]; intros d stats k d' stats' k' H Hle; cbn in H.
  - inversion H; subst. cbn. repeat split; lia.
  - cbn [List.length] in Hle.
    replace (max_hits (config source) <=? pages_crawled stats)%nat with false in H
      by (symmetry; apply Nat.leb_gt; lia).
    cbn [List.filter].
    destruct (store_document_cases d source r)
      as [[Hneg [e He]] | [Hpos (d1 & doc & o & Hs & _)]].
    + rewrite He in H. apply IH in H; [|cbn; lia]. cbn in H.
      apply Z.ltb_lt in Hneg. rewrite Hneg. cbn [negb List.length].
      rewrite length_app in H. cbn in H.
      destruct H as (H1 & H2 & H3 & H4). repeat split; lia.
    + rewrite Hs in H. apply IH in H; [|cbn; lia]. cbn in H.
      apply Z.ltb_ge in Hpos. rewrite Hpos. cbn [negb List.length].
      destruct H as (H1 & H2 & H3 & H4). repeat split; lia.
Qed.
End ManagerMore.

(** Witness of [crawl_source_accounts]: the first run over the blog. *)
Lemma crawl_source_accounts_witness :
  exists st, CrawlManager.outcome Scenario.first_run = Py.Ok st
             /\ Mongo.crawl_stats (CrawlManager.run_db Scenario.first_run)
                = Mongo.crawl_stats Scenario.db0 ++ [st].
Proof.
  destruct (crawl_source_accounts Scenario.decode Scenario.no_dom Scenario.fetch_ok
              Scenario.html_parse Scenario.db0 Scenario.sid Scenario.blog eq_refl
              ltac:(discriminate)) as (st & Ho & Hc & _).
  exists st. split; assumption.
Defined.

(** Witness of [crawl_source_keeps_unique]. *)
Lemma crawl_source_keeps_unique_witness :
  Index.unique_documents (CrawlManager.run_db Scenario.second_run).
Proof.
  apply (crawl_source_keeps_unique Scenario.decode Scenario.no_dom Scenario.fetch_ok
           Scenario.html_parse (CrawlManager.run_db Scenario.first_run) Scenario.sid).
  vm_compute. repeat constructor. intros [].
Defined.

(** Witness of [store_results_accounting]: a rejected result between two
    good ones. *)
Lemma store_results_accounting_witness :
  Mongo.pages_failed
    (snd (fst (CrawlManager.store_results Scenario.blog
                 [Examples.good_result; Examples.bad_result; Examples.good_result]
                 Scenario.db0 (CrawlManager.new_stats Scenario.sid) 0))) = 1%nat.
Proof.
  destruct (CrawlManager.store_results Scenario.blog
              [Examples.good_result; Examples.bad_result; Examples.good_result]
              Scenario.db0 (CrawlManager.new_stats Scenario.sid) 0)
    as [[d' stats'] k'] eqn:Hst.
  exact (proj1 (store_results_accounting Scenario.blog _ _ _ _ _ _ _ Hst
                  ltac:(cbn; lia))).
Defined.

(** X20.  With the fetcher that [CrawlManager.__init__] installs
    ([BaseCrawler.fetch], which returns bytes or [None]), no call of
    [crawl_source] hands a result to the store loop or adds, removes or
    changes a document, whatever the server answers, for every content
    type. *)
Theorem installed_fetcher_stores_nothing
    (decode_ignore : Py.bytes -> string)
    (soup_find : string -> option BlockingDetector.dom_facts)
    (parse : Mongo.ContentType -> CrawlManager.parse_input -> string
             -> Py.result Parsers.ParserResult)
    (can_fetch : string -> bool) (server : string -> nat -> BaseCrawler.attempt)
    (max_retries : nat) (d : Mongo.db) (source_id : string) :
  CrawlManager.run_results
    (CrawlManager.crawl_source decode_ignore soup_find
       (CrawlManager.base_fetch can_fetch server max_retries) parse d source_id) = []
  /\ CrawlManager.documents_stored
       (CrawlManager.crawl_source decode_ignore soup_find
          (CrawlManager.base_fetch can_fetch server max_retries) parse d source_id) = 0%nat
  /\ Mongo.documents
       (CrawlManager.run_db
          (CrawlManager.crawl_source decode_ignore soup_find
             (CrawlManager.base_fetch can_fetch server max_retries) parse d source_id))
     = Mongo.documents d.
Proof.
  unfold CrawlManager.crawl_source.
  destruct (Mongo.get_source d source_id) as [source|]; [|auto].
  destruct (Mongo.rate_limit_per_minute (Mongo.config source) =? 0)%nat.
  { cbn. now rewrite !documents_update_source. }
  destruct (CrawlManager.is_social (Mongo.content_type source)).
  - unfold CrawlManager._crawl_social_media, CrawlManager.base_fetch.
    destruct (BaseCrawler.fetch can_fetch server max_retries (Mongo.url source) true)
      as [[body|]|e]; cbn.
    + destruct (Py.truthy_str body); cbn; now rewrite !documents_update_source.
    + now rewrite !documents_update_source.
    + now rewrite !documents_update_source.
  - match goal with
    | |- context [CrawlManager._crawl_traditional _ _ _ _ ?d1 ?src ?st] =>
        destruct (installed_fetcher_never_parses decode_ignore soup_find parse
                    can_fetch server max_retries d1 src st) as [Hr Hd];
        rewrite Hr, Hd
    end.
    cbn. now rewrite !documents_update_source.
Qed.

(** ** Text cleaning and the parsers *)

Section CleanerMore.
Import Py PyMore Parsers.

Lemma append_assoc3 a b c : (a +:+ b) +:+ c = a +:+ (b +:+ c).
Proof.
  induction a as [|x a IH]; [reflexivity|].
  rewrite !append_cons, IH. reflexivity.
Qed.

Lemma truthy_app_r a b : truthy_str b = true -> truthy_str (a +:+ b) = true.
Proof. destruct a; [trivial|reflexivity]. Qed.

Lemma split_aux_app a c b : forall cur, is_space c = true ->
  split_aux (a +:+ String c b) cur = split_aux a cur ++ split_aux b "".
Proof.
  induction a as [|x a IH]; intros cur Hc.
  - change ("" +:+ String c b) with (String c b). cbn [split_aux]. rewrite Hc.
    destruct (truthy_str cur); reflexivity.
  - rewrite append_cons. cbn [split_aux]. destruct (is_space x).
    + destruct (truthy_str cur); cbn [app]; rewrite IH; auto.
    + apply IH; auto.
Qed.

Lemma split_aux_cons c s cur :
  split_aux (String c s) cur
  = if is_space c
    then (if truthy_str cur then cur :: split_aux s "" else split_aux s "")
    else split_aux s (cur +:+ String c "").
Proof. reflexivity. Qed.

Lemma split_lstrip s : split (lstrip s) = split s.
Proof.
  induction s as [|c s IH]; [reflexivity|]. cbn [lstrip].
  destruct (is_space c) eqn:E; [|reflexivity].
  rewrite IH. unfold split. cbn [split_aux]. rewrite E. reflexivity.
Qed.

Lemma split_aux_rstrip s : forall cur, split_aux (rstrip s) cur = split_aux s cur.
Proof.
  induction s as [|c s IH]; intros cur; [reflexivity|].
  cbn [rstrip]. destruct (rstrip s) as [|r0 r] eqn:Er.
  - cbn [split_aux]. destruct (is_space c) eqn:E.
    + rewrite <- (IH ""). cbn. destruct (truthy_str cur); reflexivity.
    + cbn [split_aux]. rewrite E. rewrite <- IH. reflexivity.
  - rewrite (split_aux_cons c (String r0 r)), (split_aux_cons c s).
    destruct (is_space c); [destruct (truthy_str cur)|]; rewrite IH; reflexivity.
Qed.

Lemma split_strip s : split (strip s) = split s.
Proof. unfold strip, split. rewrite split_aux_rstrip. apply split_lstrip. Qed.

Lemma split_lines_concat s : forall cur,
  concat (map split (split_on BlockingDetector.newline s cur)) = split (cur +:+ s).
Proof.
  induction s as [|c s IH]; intros cur; cbn [split_on].
  - cbn [map concat]. rewrite append_empty_r, app_nil_r. reflexivity.
  - destruct (Ascii.eqb c BlockingDetector.newline) eqn:E.
    + apply Ascii.eqb_eq in E; subst. cbn [map concat]. rewrite IH.
      unfold split. rewrite split_aux_app by reflexivity. reflexivity.
    + rewrite IH, append_assoc3. reflexivity.
Qed.

Lemma split_join ls : split (join_space ls) = concat (map split ls).
Proof.
  induction ls as [|w rest IH]; [reflexivity|]. destruct rest as [|w' rest'].
  - cbn [join_space map concat]. rewrite app_nil_r. reflexivity.
  - change (join_space (w :: w' :: rest'))
      with (w +:+ String " " (join_space (w' :: rest'))).
    cbn [map concat] in *. rewrite <- IH. unfold split.
    apply split_aux_app. reflexivity.
Qed.

Lemma split_kept_lines ls :
  concat (map split (List.filter truthy_str (map strip ls))) = concat (map split ls).
Proof.
  induction ls as [|l ls IH]; [reflexivity|]. cbn [map List.filter concat].
  destruct (truthy_str (strip l)) eqn:E.
  - cbn [map concat]. rewrite split_strip, IH. reflexivity.
  - rewrite IH, <- (split_strip l). destruct (strip l); [reflexivity|discriminate].
Qed.

Lemma lstrip_collapsed s : lstrip (collapse_spaces s true) = collapse_spaces s true.
Proof.
  induction s as [|c s IH]; [reflexivity|]. cbn [collapse_spaces].
  destruct (is_space c) eqn:E; [exact IH|]. cbn [lstrip]. rewrite E. reflexivity.
Qed.

Lemma lstrip_collapse s : lstrip (collapse_spaces s false) = collapse_spaces s true.
Proof.
  destruct s as [|c s]; [reflexivity|]. cbn [collapse_spaces].
  destruct (is_space c) eqn:E.
  - transitivity (lstrip (collapse_spaces s true)); [reflexivity|].
    apply lstrip_collapsed.
  - cbn [lstrip]. rewrite E. reflexivity.
Qed.

Lemma rstrip_app a b :
  rstrip (a +:+ b) = if truthy_str (rstrip b) then a +:+ rstrip b else rstrip a.
Proof.
  induction a as [|x a IH].
  - change ("" +:+ b) with b. destruct (rstrip b); reflexivity.
  - rewrite append_cons. cbn [rstrip]. rewrite IH.
    destruct (truthy_str (rstrip b)) eqn:E; [|reflexivity].
    rewrite append_cons.
    pose proof (truthy_app_r a _ E) as T.
    destruct (a +:+ rstrip b); [discriminate|reflexivity].
Qed.

Lemma rstrip_no_space w : no_space w = true -> rstrip w = w.
Proof.
  induction w as [|c w IH]; [reflexivity|]. cbn [no_space rstrip]. intros H.
  apply andb_true_iff in H as [H1 H2]. rewrite (IH H2).
  destruct w; [|reflexivity]. destruct (is_space c); [discriminate|reflexivity].
Qed.

Lemma no_space_app a b : no_space (a +:+ b) = no_space a && no_space b.
Proof.
  induction a as [|x a IH]; [reflexivity|].
  rewrite append_cons. cbn [no_space]. rewrite IH. now rewrite andb_assoc.
Qed.

Lemma split_aux_words s : forall cur,
  no_space cur = true -> Forall word (split_aux s cur).
Proof.
  induction s as [|c s IH]; intros cur Hn; cbn [split_aux].
  - destruct (truthy_str cur) eqn:E; constructor; [split; assumption|constructor].
  - destruct (is_space c) eqn:E.
    + destruct (truthy_str cur) eqn:Et; [constructor; [split; assumption|]|];
        apply IH; reflexivity.
    + apply IH. rewrite no_space_app, Hn. cbn. now rewrite E.
Qed.

Lemma join_space_truthy w ws :
  Forall word (w :: ws) -> truthy_str (join_space (w :: ws)) = true.
Proof.
  intros H. inversion H as [|? ? [Hw _] _]; subst.
  destruct ws; [exact Hw|].
  change (join_space (w :: s :: ws)) with (w +:+ String " " (join_space (s :: ws))).
  now apply truthy_app_r.
Qed.

Lemma strip_collapse s :
  (forall cur, truthy_str cur = true -> no_space cur = true ->
     rstrip (cur +:+ collapse_spaces s false) = join_space (split_aux s cur))
  /\ rstrip (collapse_spaces s true) = join_space (split_aux s "").
Proof.
  induction s as [|c s [IH1 IH2]].
  - split; [|reflexivity]. intros cur Ht Hn. cbn [collapse_spaces split_aux].
    rewrite append_empty_r, Ht. cbn [join_space]. now apply rstrip_no_space.
  - destruct (is_space c) eqn:E; split.
    + intros cur Ht Hn. cbn [collapse_spaces split_aux]. rewrite E, Ht.
      rewrite rstrip_app. cbn [rstrip]. rewrite IH2.
      pose proof (split_aux_words s "" eq_refl) as Hw.
      destruct (split_aux s "") as [|w ws].
      * cbn. now apply rstrip_no_space.
      * change (join_space (cur :: w :: ws))
          with (cur +:+ String " " (join_space (w :: ws))).
        pose proof (join_space_truthy w ws Hw) as T.
        destruct (join_space (w :: ws)); [discriminate|reflexivity].
    + cbn [collapse_spaces split_aux]. rewrite E. exact IH2.
    + intros cur Ht Hn. cbn [collapse_spaces split_aux]. rewrite E.
      rewrite <- (IH1 (cur +:+ String c "")).
      * rewrite append_assoc3. reflexivity.
      * now apply truthy_app_r.
      * rewrite no_space_app, Hn. cbn. now rewrite E.
    + cbn [collapse_spaces split_aux]. rewrite E.
      change ("" +:+ String c "") with (String c "").
      rewrite <- (IH1 (String c "")); [reflexivity|reflexivity|].
      cbn. now rewrite E.
Qed.

Lemma strip_collapsed s : strip (collapse_spaces s false) = join_space (split s).
Proof.
  unfold strip. rewrite lstrip_collapse. exact (proj2 (strip_collapse s)).
Qed.

Lemma split_aux_word w : forall s cur, no_space w = true ->
  split_aux (w +:+ s) cur = split_aux s (cur +:+ w).
Proof.
  induction w as [|c w IH]; intros s cur Hn.
  - now rewrite append_empty_r.
  - cbn [no_space] in Hn. apply andb_true_iff in Hn as [Hc Hn].
    rewrite append_cons. cbn [split_aux].
    destruct (is_space c); [discriminate|].
    rewrite IH by assumption. rewrite append_assoc3. reflexivity.
Qed.

Lemma split_of_words ws : Forall word ws -> split (join_space ws) = ws.
Proof.
  induction ws as [|w rest IH]; intros H; [reflexivity|].
  inversion H as [|? ? [Ht Hn] Hrest]; subst. destruct rest as [|w' rest'].
  - cbn [join_space]. unfold split. rewrite <- (append_empty_r w).
    rewrite split_aux_word by assumption. cbn [split_aux].
    change ("" +:+ w) with w. rewrite append_empty_r. now rewrite Ht.
  - change (join_space (w :: w' :: rest'))
      with (w +:+ String " " (join_space (w' :: rest'))).
    unfold split. rewrite split_aux_word by assumption.
    change ("" +:+ w) with w. cbn [split_aux].
    change (is_space " ") with true. cbn iota. rewrite Ht.
    f_equal. apply IH. assumption.
Qed.

(** What [ParserResult.__init__] computes for the text that
    [clean_text] returns. *)
Lemma count_words_cleaned t :
  _count_words (Parsers.clean_text t) = Z.of_nat (List.length (split t)).
Proof.
  unfold _count_words, Parsers.clean_text.
  pose proof (split_aux_words t "" eq_refl) as Hw. fold (split t) in Hw.
  destruct (split t) as [|w ws] eqn:Es; [reflexivity|].
  rewrite (join_space_truthy w ws Hw). cbn [negb].
  now rewrite split_of_words.
Qed.

Lemma clean_text_steps t : BaseParser.clean_text t = join_space (split t).
Proof.
  unfold BaseParser.clean_text. destruct t as [|c t]; [reflexivity|].
  cbn [truthy_str negb]. rewrite strip_collapsed.
  rewrite split_join, split_kept_lines. unfold split_lines.
  rewrite split_lines_concat. reflexivity.
Qed.

(** X21.  [BaseParser.clean_text] as it is written (the lines stripped,
    the empty ones dropped, the rest joined by a blank, runs of white
    space collapsed, the ends stripped) returns the white-space separated
    words of the text joined by single blanks; cleaning is idempotent. *)
Theorem clean_text_joins_words (text : string) :
  BaseParser.clean_text text = join_space (split text)
  /\ BaseParser.clean_text (BaseParser.clean_text text) = BaseParser.clean_text text.
Proof.
  split; [apply clean_text_steps|]. rewrite !clean_text_steps. f_equal.
  apply split_of_words. apply (split_aux_words text "" eq_refl).
Qed.
End CleanerMore.

Section ParsersMore.
Import Py PyMore Parsers.
Variable urljoin : string -> string -> string.
Variable decode_content : bytes -> string.
Variable soup : string -> option page.

Lemma detect_in_spec ps pg u :
  match detect_in urljoin ps pg u with
  | Some np =>
      exists p a h,
        In p ps /\ List.find (anchor_matches p) (anchors pg) = Some a
        /\ href a = Some h
        /\ ((String.prefix "/" h = true /\ np = urljoin u h)
            \/ (String.prefix "/" h = false /\ String.prefix "http" h = true /\ np = h))
  | None =>
      forall p a h,
        In p ps -> List.find (anchor_matches p) (anchors pg) = Some a ->
        href a = Some h ->
        String.prefix "/" h = false /\ String.prefix "http" h = false
  end.
Proof.
  induction ps as [|p ps IH]; cbn [detect_in].
  - intros p a h [].
  - assert (Hrest :
      (forall a h, List.find (anchor_matches p) (anchors pg) = Some a ->
                   href a = Some h ->
                   String.prefix "/" h = false /\ String.prefix "http" h = false) ->
      match detect_in urljoin ps pg u with
      | Some np =>
          exists p0 a h,
            In p0 (p :: ps) /\ List.find (anchor_matches p0) (anchors pg) = Some a
            /\ href a = Some h
            /\ ((String.prefix "/" h = true /\ np = urljoin u h)
                \/ (String.prefix "/" h = false /\ String.prefix "http" h = true
                    /\ np = h))
      | None =>
          forall p0 a h,
            In p0 (p :: ps) -> List.find (anchor_matches p0) (anchors pg) = Some a ->
            href a = Some h ->
            String.prefix "/" h = false /\ String.prefix "http" h = false
      end).
    { intros Hp. destruct (detect_in urljoin ps pg u) as [np|].
      - destruct IH as (p0 & a & h & Hin & Hrest). exists p0, a, h.
        split; [now right|exact Hrest].
      - intros p0 a h [<-|Hin]; [apply Hp|now apply IH]. }
    destruct (List.find (anchor_matches p) (anchors pg)) as [a|] eqn:Hf;
      [|apply Hrest; discriminate].
    destruct (href a) as [h|] eqn:Hh;
      [|apply Hrest; intros a' h' [= <-]; congruence].
    destruct (truthy_str h) eqn:Ht.
    + destruct (String.prefix "/" h) eqn:Hs.
      * exists p, a, h. split; [now left|]. auto.
      * destruct (String.prefix "http" h) eqn:Hp.
        -- exists p, a, h. split; [now left|]. auto 6.
        -- apply Hrest. intros a' h' [= <-] Hh'. rewrite Hh in Hh'.
           injection Hh' as <-. auto.
    + apply Hrest. intros a' h' [= <-] Hh'. rewrite Hh in Hh'.
      injection Hh' as <-. destruct h; [auto|discriminate].
Qed.

(** X22.  [_detect_next_page] only ever returns a link taken from the
    first anchor that matches one of its three patterns ([rel="next"], a
    class containing "next", an id containing "next"): that anchor's
    [href] joined to the current URL when it starts with "/", the [href]
    itself when it starts with "http".  It returns [None] only when no
    pattern's first match has such an [href]; other relative links are
    never resolved. *)
Theorem detect_next_page_spec (pg : page) (current_url : string) :
  match _detect_next_page urljoin pg current_url with
  | Some np =>
      exists p a h,
        In p next_patterns
        /\ List.find (anchor_matches p) (anchors pg) = Some a
        /\ href a = Some h
        /\ ((String.prefix "/" h = true /\ np = urljoin current_url h)
            \/ (String.prefix "/" h = false /\ String.prefix "http" h = true /\ np = h))
  | None =>
      forall p a h,
        In p next_patterns ->
        List.find (anchor_matches p) (anchors pg) = Some a ->
        href a = Some h ->
        String.prefix "/" h = false /\ String.prefix "http" h = false
  end.
Proof. apply detect_in_spec. Qed.

(** X23.  A result of [HTMLParser.parse] carries the URL it was given and
    the decoded page, its [cleaned_text] is what [BaseParser.clean_text]
    makes of the visible text, its [word_count] is the number of
    white-space separated words of the visible text, and
    [_store_document] never rejects it. *)
Theorem html_parse_result (content : bytes) (u : string) (r : ParserResult) :
  Parsers.parse urljoin decode_content soup content u = Ok r ->
  exists pg,
    soup (decode_content content) = Some pg
    /\ url r = u
    /\ raw_content r = decode_content content
    /\ cleaned_text r = BaseParser.clean_text (visible_text pg)
    /\ word_count r = Z.of_nat (List.length (split (visible_text pg)))
    /\ forall d source, exists d', CrawlManager._store_document d source r = Ok d'.
Proof.
  unfold Parsers.parse. destruct (soup (decode_content content)) as [pg|];
    [|discriminate].
  intros [= <-]. exists pg. cbn [url raw_content cleaned_text word_count mk_ParserResult].
  change (0 =? 0)%Z with true. cbn iota.
  split; [reflexivity|]. split; [reflexivity|]. split; [reflexivity|].
  split; [now rewrite clean_text_steps|].
  split; [apply count_words_cleaned|].
  intros d source.
  match goal with |- context [CrawlManager._store_document d source ?r] =>
    destruct (store_document_cases d source r)
      as [[Hneg _] | [_ (d' & _ & _ & Hs & _)]]
  end.
  - cbn [word_count mk_ParserResult] in Hneg. change (0 =? 0)%Z with true in Hneg.
    cbn iota in Hneg. rewrite count_words_cleaned in Hneg. lia.
  - eauto.
Qed.
End ParsersMore.

(** Witness of [html_parse_result]: the blog page has four words. *)
Lemma html_parse_result_witness : Parsers.word_count Examples.blog_result = 4%Z.
Proof.
  destruct (html_parse_result Scenario.urljoin Scenario.decode Scenario.soup
              Scenario.body (Mongo.url Scenario.blog) Examples.blog_result eq_refl)
    as (pg & Hs & _ & _ & _ & Hwc & _).
  rewrite Hwc. cbv in Hs. injection Hs as <-. reflexivity.
Defined.

Section TxtMore.
Import Py PyMore TxtParser.
Variable url_stem : string -> option string.
Variable decode_content : bytes -> string.
Variable detect_encoding : bytes -> string.

(** A line that the loop of [_extract_title] passes over. *)
Lemma first_title_line_spec lines :
  match first_title_line lines with
  | Some t =>
      exists pre line post,
        lines = pre ++ line :: post /\ t = strip line
        /\ truthy_str t = true /\ (String.length t < 200)%nat
        /\ Forall (fun l => strip l = "" \/ (200 <= String.length (strip l))%nat) pre
  | None =>
      Forall (fun l => strip l = "" \/ (200 <= String.length (strip l))%nat) lines
  end.
Proof.
  induction lines as [|l rest IH]; cbn [first_title_line]; [constructor|].
  destruct (truthy_str (strip l)) eqn:Ht; cbn [andb].
  - destruct (String.length (strip l) <? 200)%nat eqn:Hl.
    + exists [], l, rest. apply Nat.ltb_lt in Hl. auto.
    + apply Nat.ltb_ge in Hl.
      destruct (first_title_line rest) as [t|].
      * destruct IH as (pre & line & post & -> & Hrest).
        exists (l :: pre), line, post. split; [reflexivity|].
        destruct Hrest as (H1 & H2 & H3 & H4).
        split; [assumption|]. split; [assumption|]. split; [assumption|].
        constructor; auto.
      * constructor; auto.
  - assert (Hl : strip l = "") by (destruct (strip l); [reflexivity|discriminate]).
    destruct (first_title_line rest) as [t|].
    + destruct IH as (pre & line & post & -> & Hrest).
      exists (l :: pre), line, post. split; [reflexivity|].
      destruct Hrest as (H1 & H2 & H3 & H4).
      split; [assumption|]. split; [assumption|]. split; [assumption|].
      constructor; auto.
    + constructor; auto.
Qed.

(** X24.  The title that [TXTParser._extract_title] returns is never
    empty.  It is the first line of the text that, once stripped, is
    non-empty and shorter than 200 characters, in its stripped form;
    only when the text has no such line is it the file stem of the
    URL. *)
Theorem extract_title_spec (text u t : string) :
  _extract_title url_stem text u = Some t ->
  truthy_str t = true
  /\ ((exists pre line post,
         split_lines text = pre ++ line :: post /\ t = strip line
         /\ (String.length t < 200)%nat
         /\ Forall (fun l => strip l = "" \/ (200 <= String.length (strip l))%nat) pre)
      \/ (url_stem u = Some t
          /\ Forall (fun l => strip l = "" \/ (200 <= String.length (strip l))%nat)
                    (split_lines text))).
Proof.
  unfold _extract_title.
  pose proof (first_title_line_spec (split_lines text)) as Hspec.
  destruct (first_title_line (split_lines text)) as [l|].
  - intros [= <-]. destruct Hspec as (pre & line & post & H1 & H2 & H3 & H4 & H5).
    split; [assumption|]. left. exists pre, line, post. auto.
  - destruct (url_stem u) as [filename|]; [|discriminate].
    destruct (truthy_str filename) eqn:Ht; [|discriminate].
    intros [= <-]. auto.
Qed.

(** X25.  [TXTParser.parse] raises exactly when the decoded text is
    empty.  Otherwise it returns a result for the given URL whose
    [cleaned_text] is what [BaseParser.clean_text] makes of the text and
    whose [word_count] is the number of white-space separated words of
    the text, so a file of white space only is returned with an empty
    [cleaned_text] and zero words. *)
Theorem txt_parse_spec (content : bytes) (u : string) :
  match TxtParser.parse url_stem decode_content detect_encoding content u with
  | Ok r =>
      decode_content content <> ""
      /\ Parsers.url r = u
      /\ Parsers.raw_content r = decode_content content
      /\ Parsers.cleaned_text r = BaseParser.clean_text (decode_content content)
      /\ Parsers.word_count r
         = Z.of_nat (List.length (split (decode_content content)))
      /\ Parsers.title r = _extract_title url_stem (decode_content content) u
  | Raise e =>
      decode_content content = ""
      /\ e = ValueError "Text parsing failed: Empty text file"
  end.
Proof.
  unfold TxtParser.parse. destruct (decode_content content) as [|c t] eqn:Hd.
  - cbn. auto.
  - cbn [truthy_str negb].
    cbn [Parsers.url Parsers.raw_content Parsers.cleaned_text Parsers.word_count
         Parsers.title Parsers.mk_ParserResult].
    change (0 =? 0)%Z with true. cbn iota.
    split; [discriminate|]. split; [reflexivity|]. split; [reflexivity|].
    split; [now rewrite clean_text_steps|].
    split; [apply count_words_cleaned|reflexivity].
Qed.
End TxtMore.

(** Witness of [extract_title_spec]: the title of a file that starts
    with an empty line. *)
Lemma extract_title_spec_witness :
  TxtParser._extract_title Examples.no_stem Examples.text_file "http://example.com/notes.txt"
  = Some "Release notes"
  /\ Py.truthy_str "Release notes" = true.
Proof.
  split; [reflexivity|].
  exact (proj1 (extract_title_spec Examples.no_stem Examples.text_file
                  "http://example.com/notes.txt" "Release notes" eq_refl)).
Defined.

(** ** The scheduler's jobs and the crawler endpoints *)

Section RunMore.
Import Py Mongo CrawlScheduler.
Variable decode_ignore : bytes -> string.
Variable soup_find : string -> option BlockingDetector.dom_facts.
Variable fetch : list string -> string -> result CrawlManager.pyobj.
Variable parse : ContentType -> CrawlManager.parse_input -> string
                 -> result Parsers.ParserResult.

(** X26.  A job that finds its source unmarked runs [crawl_source]
    exactly once on the current database, returns with the mark cleared
    and every other source's mark and the job list as they were, so that
    a manual trigger for the same source is accepted again. *)
Theorem crawl_job_runs_and_releases (s : state) (source_id : string) :
  is_active s source_id = false ->
  executing (_crawl_job decode_ignore soup_find fetch parse s source_id)
  = executing s ++ [source_id]
  /\ st_db (_crawl_job decode_ignore soup_find fetch parse s source_id)
     = CrawlManager.run_db
         (CrawlManager.crawl_source decode_ignore soup_find fetch parse
            (st_db s) source_id)
  /\ jobs (_crawl_job decode_ignore soup_find fetch parse s source_id) = jobs s
  /\ is_active (_crawl_job decode_ignore soup_find fetch parse s source_id) source_id
     = false
  /\ (forall other, other <> source_id ->
        is_active (_crawl_job decode_ignore soup_find fetch parse s source_id) other
        = is_active s other)
  /\ (forall now,
        snd (trigger_source_crawl
               (_crawl_job decode_ignore soup_find fetch parse s source_id)
               now source_id) = true).
Proof.
  intros Ha.
  assert (Hown : is_active (_crawl_job decode_ignore soup_find fetch parse s source_id)
                           source_id = false)
    by now apply crawl_job_clears_mark.
  split; [|split; [|split; [|split; [|split]]]].
  - unfold _crawl_job. rewrite Ha. reflexivity.
  - unfold _crawl_job. rewrite Ha. reflexivity.
  - unfold _crawl_job. rewrite Ha. reflexivity.
  - exact Hown.
  - intros other Hne. unfold _crawl_job. rewrite Ha.
    unfold _execute_crawl, execute_finally. rewrite is_active_set.
    destruct (decide (source_id = other)) as [->|_]; [contradiction|].
    unfold is_active, execute_try, set_active. cbn.
    now rewrite lookup_insert_ne by congruence.
  - intros now. unfold trigger_source_crawl. rewrite Hown. reflexivity.
Qed.
End RunMore.

(** Witness of [crawl_job_runs_and_releases]: the blog's job on the idle
    scheduler. *)
Lemma crawl_job_runs_and_releases_witness :
  CrawlScheduler.executing
    (CrawlScheduler._crawl_job Scenario.decode Scenario.no_dom Scenario.fetch_ok
       Scenario.html_parse Scenario.idle_scheduler Scenario.sid)
  = [Scenario.sid].
Proof.
  exact (proj1 (crawl_job_runs_and_releases Scenario.decode Scenario.no_dom
                  Scenario.fetch_ok Scenario.html_parse Scenario.idle_scheduler
                  Scenario.sid eq_refl)).
Defined.

Section EndpointsMore.
Import Py Mongo CrawlScheduler Jobs.

Lemma start_crawl_cases s now source_id :
  (get_source (st_db s) source_id = None
   /\ Api.start_crawl s now source_id = (s, 404%Z))
  \/ (exists source, get_source (st_db s) source_id = Some source
        /\ status source = RUNNING
        /\ Api.start_crawl s now source_id = (s, 409%Z))
  \/ (exists source, get_source (st_db s) source_id = Some source
        /\ status source <> RUNNING /\ is_active s source_id = true
        /\ Api.start_crawl s now source_id = (s, 500%Z))
  \/ (exists source, get_source (st_db s) source_id = Some source
        /\ status source <> RUNNING /\ is_active s source_id = false
        /\ Api.start_crawl s now source_id
           = (fst (trigger_source_crawl s now source_id), 200%Z)
        /\ fst (trigger_source_crawl s now source_id)
           = {| st_db := st_db s;
                jobs := jobs s
                        ++ [ {| job_id := "manual_crawl_" +:+ source_id +:+ "_" +:+ now;
                                job_name := "Manual crawl: " +:+ source_id;
                                job_args := source_id;
                                job_trigger := None |} ];
                active_crawls := active_crawls s; executing := executing s |}).
Proof.
  unfold Api.start_crawl.
  destruct (get_source (st_db s) source_id) as [source|]; [|left; auto].
  right.
  assert (Hrun : status source = RUNNING \/ status source <> RUNNING)
    by (destruct (status source); auto; right; discriminate).
  destruct Hrun as [Hr|Hr].
  { left. exists source. rewrite Hr. auto. }
  right. unfold trigger_source_crawl.
  destruct (is_active s source_id) eqn:Ha.
  - left. exists source.
    destruct (status source); try contradiction; auto.
  - right. exists source. cbn [fst].
    destruct (status source); try contradiction; auto.
Qed.

(** X27.  [POST /start/{source_id}] answers 404 exactly when the source
    is missing, 409 exactly when its stored status is [running], 500
    exactly when the scheduler holds the source's mark, and 200
    otherwise.  Only a 200 changes anything: it queues one job without a
    trigger for the source and touches neither the database nor the
    marks, so a second start that arrives before the job runs is answered
    200 as well. *)
Theorem start_crawl_spec (s : state) (now : string) (source_id : string) :
  (snd (Api.start_crawl s now source_id) = 404%Z
   <-> get_source (st_db s) source_id = None)
  /\ (snd (Api.start_crawl s now source_id) = 409%Z
      <-> option_map status (get_source (st_db s) source_id) = Some RUNNING)
  /\ (snd (Api.start_crawl s now source_id) = 500%Z
      <-> exists source, get_source (st_db s) source_id = Some source
                         /\ status source <> RUNNING
                         /\ is_active s source_id = true)
  /\ (snd (Api.start_crawl s now source_id) <> 200%Z
      -> fst (Api.start_crawl s now source_id) = s)
  /\ (snd (Api.start_crawl s now source_id) = 200%Z
      -> st_db (fst (Api.start_crawl s now source_id)) = st_db s
         /\ active_crawls (fst (Api.start_crawl s now source_id)) = active_crawls s
         /\ (exists j, jobs (fst (Api.start_crawl s now source_id)) = jobs s ++ [j]
                       /\ job_args j = source_id /\ job_trigger j = None)
         /\ forall now',
              snd (Api.start_crawl (fst (Api.start_crawl s now source_id))
                     now' source_id) = 200%Z).
Proof.
  destruct (start_crawl_cases s now source_id)
    as [[Hs ->] | [(source & Hs & Hr & ->) | [(source & Hs & Hr & Ha & ->)
        | (source & Hs & Hr & Ha & -> & Hq)]]];
    cbn [fst snd]; rewrite Hs; cbn [option_map].
  - split; [tauto|]. split; [split; discriminate|].
    split; [split; [discriminate|intros (x & Hx & _); discriminate]|].
    split; [reflexivity|discriminate].
  - split; [split; discriminate|]. split; [split; congruence|].
    split; [split; [discriminate|]|].
    { intros (x & Hx & Hne & _). congruence. }
    split; [reflexivity|discriminate].
  - split; [split; discriminate|].
    split; [split; [discriminate|congruence]|].
    split; [split; [eauto|reflexivity]|].
    split; [reflexivity|discriminate].
  - split; [split; discriminate|].
    split; [split; [discriminate|congruence]|].
    split; [split; [discriminate|]|].
    { intros (x & _ & _ & Hx). congruence. }
    split; [intros H; contradiction|]. intros _. rewrite Hq. cbn [st_db active_crawls jobs].
    split; [reflexivity|]. split; [reflexivity|].
    split; [eexists; split; [reflexivity|]; split; reflexivity|].
    intros now'.
    match goal with |- snd (Api.start_crawl ?s1 now' source_id) = _ =>
      destruct (start_crawl_cases s1 now' source_id)
        as [[Hs1 _] | [(x & Hs1 & Hr1 & _) | [(x & Hs1 & Hr1 & Ha1 & _)
            | (x & _ & _ & _ & -> & _)]]]
    end.
    + cbn [st_db] in Hs1. congruence.
    + cbn [st_db] in Hs1. congruence.
    + unfold is_active in Ha1, Ha. cbn [active_crawls] in Ha1. congruence.
    + reflexivity.
Qed.
End EndpointsMore.

Section JobsMore.
Import Py Mongo CrawlScheduler Jobs.
Variable cron_trigger_ok : list string -> bool.








(** X29.  [POST /stop] and [POST /resume] on an existing source that has
    a scheduled job: both answer 200; the stop pauses the job and stores
    status [paused]; the resume takes the pause away, keeps the job list,
    and stores status [idle], whatever the status was before the stop.
    Without a scheduled job the stop answers 200 and changes nothing. *)
Theorem stop_then_resume (s : sched) (source_id : string) (source : Source) :
  get_source (st_db (core s)) source_id = Some source ->
  (has_job s (scheduled_id source_id) = false ->
   Api.stop_crawl s source_id = (s, 200%Z, false))
  /\ (has_job s (scheduled_id source_id) = true ->
      exists s1 s2,
        Api.stop_crawl s source_id = (s1, 200%Z, true)
        /\ (scheduled_id source_id ∈ paused s1)
        /\ option_map status (get_source (st_db (core s1)) source_id) = Some PAUSED
        /\ Api.resume_crawl cron_trigger_ok s1 source_id = (s2, 200%Z)
        /\ (scheduled_id source_id ∉ paused s2)
        /\ jobs (core s2) = jobs (core s)
        /\ option_map status (get_source (st_db (core s2)) source_id) = Some IDLE).
Proof.
  intros Hs. split; intros Hj.
  - unfold Api.stop_crawl. rewrite Hs. unfold pause_source_job, pause_job.
    now rewrite Hj.
  - unfold Api.stop_crawl. rewrite Hs. unfold pause_source_job, pause_job.
    rewrite Hj. cbn [core paused].
    eexists. eexists. split; [reflexivity|]. cbn [core paused st_db with_db].
    split; [apply elem_of_union; right; now apply elem_of_singleton|].
    pose proof (get_update_source _ _ (set_status_only PAUSED) _ Hs) as Hs1.
    split; [now rewrite Hs1|].
    unfold Api.resume_crawl. cbn [core st_db with_db]. rewrite Hs1.
    unfold resume_source_job, resume_job.
    assert (Hj1 : has_job
                    {| core := with_db (core s)
                                 (update_source (st_db (core s)) source_id
                                    (set_status_only PAUSED));
                       paused := paused s ∪ {[scheduled_id source_id]} |}
                    (scheduled_id source_id) = true) by exact Hj.
    rewrite Hj1. cbn [core paused st_db with_db jobs].
    split; [reflexivity|]. cbn [core paused st_db with_db jobs].
    split; [apply not_elem_of_difference; right; now apply elem_of_singleton|].
    split; [reflexivity|].
    now rewrite (get_update_source _ _ (set_status_only IDLE) _ Hs1).
Qed.
End JobsMore.

(** Witness of [stop_then_resume]: the blog's scheduled job. *)
Lemma stop_then_resume_witness :
  exists s1 s2,
    Api.stop_crawl Examples.scheduled Scenario.sid = (s1, 200%Z, true)
    /\ Api.resume_crawl Examples.cron_ok s1 Scenario.sid = (s2, 200%Z).
Proof.
  destruct (proj2 (stop_then_resume Examples.cron_ok Examples.scheduled Scenario.sid
                     Scenario.blog eq_refl) eq_refl)
    as (s1 & s2 & H1 & _ & _ & H2 & _).
  exists s1, s2. split; assumption.
Defined.

Section DeleteMore.
Import Py Mongo CrawlScheduler Jobs.

End DeleteMore.

